(** * MNIST dataset builder: the IDX reader of [data/mnist_dataset_builder.py]

    A shallow embedding of the header checkers, the big-endian reader and
    the record pipeline of the module, with the properties of its
    specification stated over that embedding. *)

From Stdlib Require Import ZArith Strings.Ascii Strings.Byte Floats.SpecFloat.
From stdpp Require Import gmap strings list.

Local Open Scope Z_scope.

(** ** Exceptions and results *)

(** The texts of the [ValueError]s the module and numpy build; the f-strings
    of lines 26, 29 and 38 are kept as their fields. *)
Inductive message :=
  | Invalid_magic_number (magic : Z) (name : string)
  | Expected_28x28_images (name : string) (rows cols : Z)
  | Buffer_size_not_multiple_of_element_size.

Inductive exception :=
  | ValueError (msg : message)
  | IndexError
  | NameError (name : string)
  | NotFoundError (filename : string)
  | URLError (url : string)
  | InvalidArgumentError
  | TruncatedReadError.

Inductive result (A : Type) :=
  | Return (a : A)
  | Raise (e : exception).
Arguments Return {A} a.
Arguments Raise {A} e.

(** What a Python call hands back: the checkers have no [return]
    statement, so they hand back [None]. *)
Inductive value :=
  | PyNone
  | PyInt (z : Z)
  | PyTuple (items : list Z).

(** Code that threads a mutable object (an open file, the file system) and
    may raise. *)
Definition io (S A : Type) : Type := S -> result A * S.

Definition ret {S A} (a : A) : io S A := fun s => (Return a, s).
Definition raise {S A} (e : exception) : io S A := fun s => (Raise e, s).
Definition bind {S A B} (c : io S A) (k : A -> io S B) : io S B :=
  fun s => match c s with
           | (Return a, s') => k a s'
           | (Raise e, s') => (Raise e, s')
           end.
Definition lift {S A} (r : result A) : io S A := fun s => (r, s).

#[global] Instance io_ret {S} : MRet (io S) := fun A => ret.
#[global] Instance io_bind {S} : MBind (io S) := fun A B k c => bind c k.

(** ** Byte streams *)

(** An open binary file: its name, its bytes and the read cursor. *)
Record bytestream := mkStream {
  name : string;
  buffer : list byte;
  pos : nat
}.

Definition remaining (f : bytestream) : list byte := drop (pos f) (buffer f).

(** [f.read(n)]: the next [n] bytes, or fewer at the end of the file; the
    cursor moves past what was read. *)
Definition read (n : nat) : io bytestream (list byte) := fun f =>
  let chunk := take n (remaining f) in
  (Return chunk, mkStream (name f) (buffer f) (pos f + length chunk)).

Definition seek (offset : nat) (f : bytestream) : bytestream :=
  mkStream (name f) (buffer f) offset.

Definition byte_val (b : byte) : Z := Z.of_N (Byte.to_N b).

(** One big-endian element: each byte shifts the accumulator by 8 bits. *)
Definition from_bytes_be (bs : list byte) : Z :=
  fold_left (fun acc b => acc * 256 + byte_val b) bs 0.

(** [np.frombuffer(buf, dtype='>u4')]: the buffer cut in 4-byte big-endian
    elements; numpy refuses a buffer whose size is not a multiple of 4. *)
Fixpoint frombuffer (buf : list byte) : result (list Z) :=
  match buf with
  | [] => Return []
  | b0 :: b1 :: b2 :: b3 :: rest =>
      match frombuffer rest with
      | Return arr => Return (from_bytes_be [b0; b1; b2; b3] :: arr)
      | Raise e => Raise e
      end
  | _ => Raise (ValueError Buffer_size_not_multiple_of_element_size)
  end.

(** [arr[0]] *)
Definition getitem0 (arr : list Z) : result Z :=
  match arr with
  | x :: _ => Return x
  | [] => Raise IndexError
  end.

(** Lines 12-15. *)
Definition read32 : io bytestream Z :=
  buf ← read 4;
  arr ← lift (frombuffer buf);
  lift (getitem0 arr).

(** ** Header checkers *)

(** [f.name] *)
Definition get_name : io bytestream string := fun f => (Return (name f), f).

(** Lines 21-29, the body under [with ... as f]. *)
Definition check_image_stream : io bytestream value :=
  magic ← read32;
  read32;;
  rows ← read32;
  cols ← read32;
  if negb (magic =? 2051) then
    fname ← get_name;
    raise (ValueError (Invalid_magic_number magic fname))
  else if negb (rows =? 28) || negb (cols =? 28) then
    fname ← get_name;
    raise (ValueError (Expected_28x28_images fname rows cols))
  else ret PyNone.

(** Lines 35-38. *)
Definition check_labels_stream : io bytestream value :=
  magic ← read32;
  read32;;
  if negb (magic =? 2049) then
    fname ← get_name;
    raise (ValueError (Invalid_magic_number magic fname))
  else ret PyNone.

(** [tf.gfile.Open(filename, 'rb')] on a file system that maps a path to
    its bytes: a fresh stream with the cursor at 0. *)
Definition gfile_Open (fs : gmap string (list byte)) (filename : string)
  : result bytestream :=
  match fs !! filename with
  | Some bytes => Return (mkStream filename bytes 0)
  | None => Raise (NotFoundError filename)
  end.

(** The [with] block: open, run the body, drop the handle. *)
Definition with_open {A} (fs : gmap string (list byte)) (filename : string)
    (body : io bytestream A) : result A :=
  match gfile_Open fs filename with
  | Return f => fst (body f)
  | Raise e => Raise e
  end.

(** Lines 18-29. *)
Definition check_image_file_header (fs : gmap string (list byte))
    (filename : string) : result value :=
  with_open fs filename check_image_stream.

(** Lines 32-38. *)
Definition check_labels_file_header (fs : gmap string (list byte))
    (filename : string) : result value :=
  with_open fs filename check_labels_stream.

(** ** Pixels and labels *)

(** [tf.float32]: IEEE 754 binary32, 24 bits of precision, exponents up to
    128, with the operations of the Standard Library's [SpecFloat]. *)
Definition float32 : Type := spec_float.

(** [tf.cast(_, tf.float32)] on one [uint8]. *)
Definition cast_float32 (z : Z) : float32 := binary_normalize 24 128 z 0 false.

(** [x / y] on float32 scalars, rounded to nearest even. *)
Definition truediv (x y : float32) : float32 := SFdiv 24 128 x y.

(** The literal [255.0] as the float32 constant of the graph. *)
Definition c255 : float32 := cast_float32 255.

(** One element of [decode_image]: cast, then divide by 255.0. *)
Definition normalize (b : byte) : float32 := truediv (cast_float32 (byte_val b)) c255.

(** [tf.decode_raw(_, tf.uint8)] *)
Definition decode_raw (record : list byte) : list Z := byte_val <$> record.

(** [tf.reshape(t, [n])]: the tensor must hold [n] elements. *)
Definition reshape {A} (t : list A) (n : nat) : result (list A) :=
  if (length t =? n)%nat then Return t else Raise InvalidArgumentError.

(** [tf.reshape(t, [])]: a scalar out of a one-element tensor. *)
Definition reshape_scalar {A} (t : list A) : result A :=
  match t with
  | [x] => Return x
  | _ => Raise InvalidArgumentError
  end.

Definition result_bind {A B} (r : result A) (k : A -> result B) : result B :=
  match r with
  | Return a => k a
  | Raise e => Raise e
  end.

(** Lines 69-74. *)
Definition decode_image (image : list byte) : result (list float32) :=
  let image := decode_raw image in
  let image := cast_float32 <$> image in
  result_bind (reshape image 784) (fun image =>
  Return ((fun x => truediv x c255) <$> image)).

(** Lines 76-79; [tf.to_int32] of a [uint8] keeps its value. *)
Definition decode_label (label : list byte) : result Z :=
  let label := decode_raw label in
  result_bind (reshape_scalar label) (fun label =>
  Return label).

(** ** Datasets as iterators *)

(** One request for the next element. *)
Inductive step (A S : Type) :=
  | Yield (a : A) (s : S)
  | EndOfSequence
  | Error (e : exception).
Arguments Yield {A S} a s.
Arguments EndOfSequence {A S}.
Arguments Error {A S} e.

(** A dataset is consumed through an iterator: a state and the function
    that produces the next element on demand. *)
Record Dataset (A : Type) := mkDataset {
  iter : Type;
  start : iter;
  get_next : iter -> step A iter
}.
Arguments iter {A} d.
Arguments start {A} d.
Arguments get_next {A} d s.

(** How a run of requests ends: the iterator is still live, the sequence
    is over, or a request failed. *)
Inductive ending (S : Type) :=
  | Suspended (s : S)
  | Exhausted
  | Failed (e : exception).
Arguments Suspended {S} s.
Arguments Exhausted {S}.
Arguments Failed {S} e.

(** Ask for at most [n] elements, one request at a time. *)
Fixpoint get_many {A} (d : Dataset A) (n : nat) (s : iter d)
  : list A * ending (iter d) :=
  match n with
  | O => ([], Suspended s)
  | S n' =>
      match get_next d s with
      | Yield a s' => let (xs, e) := get_many d n' s' in (a :: xs, e)
      | EndOfSequence => ([], Exhausted)
      | Error e => ([], Failed e)
      end
  end.

(** The same run from a fresh iterator, keeping only how it ended. *)
Definition forget {S} (e : ending S) : ending () :=
  match e with
  | Suspended _ => Suspended ()
  | Exhausted => Exhausted
  | Failed x => Failed x
  end.

Definition consume {A} (d : Dataset A) (n : nat) : list A * ending () :=
  let (xs, e) := get_many d n (start d) in (xs, forget e).

(** Modelled from the spec: the record reader behind
    [tf.data.FixedLengthRecordDataset(file, record_bytes, header_bytes=h)]
    is TensorFlow code, absent from the module. As the record decoder's
    contract has it, every request reads exactly [record_bytes] bytes and a
    short record fails with [TruncatedReadError]; the call sites (lines
    81-84) pass a file, a record size and a header size and no count, so the
    sequence ends where the file does. The file is opened at the first
    request and the header skipped. *)
Definition next_record (record_bytes : nat) (f : bytestream)
  : step (list byte) (option bytestream) :=
  if (pos f <? length (buffer f))%nat then
    let (r, f') := read record_bytes f in
    match r with
    | Return chunk =>
        if (length chunk <? record_bytes)%nat then Error TruncatedReadError
        else Yield chunk (Some f')
    | Raise e => Error e
    end
  else EndOfSequence.

Definition FixedLengthRecordDataset (fs : gmap string (list byte))
    (filename : string) (record_bytes header_bytes : nat)
  : Dataset (list byte) :=
  {| iter := option bytestream;
     start := None;
     get_next := fun s =>
       match s with
       | Some f => next_record record_bytes f
       | None =>
           match gfile_Open fs filename with
           | Return f => next_record record_bytes (seek header_bytes f)
           | Raise e => Error e
           end
       end |}.

(** Modelled from the spec: [Dataset.map(f)] (TensorFlow code) applies [f]
    to each element as it is requested. *)
Definition map {A B} (f : A -> result B) (d : Dataset A) : Dataset B :=
  {| iter := iter d;
     start := start d;
     get_next := fun s =>
       match get_next d s with
       | Yield a s' =>
           match f a with
           | Return b => Yield b s'
           | Raise e => Error e
           end
       | EndOfSequence => EndOfSequence
       | Error e => Error e
       end |}.

(** Modelled from the spec: [tf.data.Dataset.zip((a, b))] (TensorFlow code)
    advances both sequences in lockstep, first [a] then [b], and stops as
    soon as either is exhausted. *)
Definition zip {A B} (da : Dataset A) (db : Dataset B) : Dataset (A * B) :=
  {| iter := iter da * iter db;
     start := (start da, start db);
     get_next := fun '(sa, sb) =>
       match get_next da sa with
       | Yield a sa' =>
           match get_next db sb with
           | Yield b sb' => Yield (a, b) (sa', sb')
           | EndOfSequence => EndOfSequence
           | Error e => Error e
           end
       | EndOfSequence => EndOfSequence
       | Error e => Error e
       end |}.

(** ** Download and the dataset constructors *)

(** What the module acts on: the files on disk and what the web server
    holds. [web] maps a URL to the gunzipped bytes behind it; a URL it does
    not map cannot be fetched. *)
Record world := mkWorld {
  files : gmap string (list byte);
  web : gmap string (list byte)
}.

Fixpoint ends_with_slash (s : string) : bool :=
  match s with
  | EmptyString => false
  | String c EmptyString => Ascii.eqb c "/"%char
  | String _ s' => ends_with_slash s'
  end.

(** [os.path.join(a, b)] on POSIX paths. *)
Definition path_join (a b : string) : string :=
  if String.prefix "/" b then b
  else if String.eqb a EmptyString || ends_with_slash a then String.append a b
  else String.append a (String.append "/" b).

(** [tf.gfile.Exists(path)], for files. *)
Definition gfile_Exists (path : string) : io world bool :=
  fun w => (Return (bool_decide (is_Some (files w !! path))), w).

(** [urllib.request.urlretrieve] followed by the gunzip copy of lines
    53-55: the payload lands at [filepath]. The temporary file is created
    and removed in between, and directories are not represented. *)
Definition fetch (url filepath : string) : io world () :=
  fun w =>
    match web w !! url with
    | Some payload => (Return (), mkWorld (<[filepath := payload]> (files w)) (web w))
    | None => (Raise (URLError url), w)
    end.

(** Lines 41-57. *)
Definition download (directory filename : string) : io world string :=
  let filepath := path_join directory filename in
  exists_ ← gfile_Exists filepath;
  if exists_ : bool then ret filepath
  else
    let url := String.append "http://yann.lecun.com/exdb/mnist/"
                 (String.append filename ".gz") in
    fetch url filepath;;
    ret filepath.

(** A checker reads the disk and leaves it as it is. *)
Definition on_files {A} (check : gmap string (list byte) -> result A)
  : io world A :=
  fun w => (check (files w), w).

Definition get_files : io world (gmap string (list byte)) :=
  fun w => (Return (files w), w).

(** A sample: 784 normalized pixels and the label. *)
Definition sample : Type := list float32 * Z.

(** Lines 81-82, the value bound to [images]. *)
Definition images (fs : gmap string (list byte)) (images_file : string)
  : Dataset (list float32) :=
  map decode_image (FixedLengthRecordDataset fs images_file (28 * 28) 16).

(** Lines 83-84, the value bound to [labels]. *)
Definition labels (fs : gmap string (list byte)) (labels_file : string)
  : Dataset Z :=
  map decode_label (FixedLengthRecordDataset fs labels_file 1 8).

(** Lines 60-85. *)
Definition dataset (directory images_file labels_file : string)
  : io world (Dataset sample) :=
  images_file ← download directory images_file;
  labels_file ← download directory labels_file;
  on_files (fun fs => check_image_file_header fs images_file);;
  on_files (fun fs => check_labels_file_header fs labels_file);;
  fs ← get_files;
  ret (zip (images fs images_file) (labels fs labels_file)).

(** Name lookup inside a function body: the parameters and the assigned
    locals are found; nothing at module level binds a file name, so any
    other name is undefined. *)
Definition load_name (locals : list (string * string)) (id : string)
  : result string :=
  match List.find (fun kv => String.eqb (fst kv) id) locals with
  | Some kv => Return (snd kv)
  | None => Raise (NameError id)
  end.

(** Lines 88-112. The function has the parameters [directory] and
    [images_file] only; [labels_file] is looked up at line 94. *)
Definition autoencoder_dataset (directory images_file : string)
  : io world (Dataset sample) :=
  images_file ← download directory images_file;
  let locals := [("directory", directory); ("images_file", images_file)] in
  on_files (fun fs => check_image_file_header fs images_file);;
  labels_file ← lift (load_name locals "labels_file");
  on_files (fun fs => check_labels_file_header fs labels_file);;
  fs ← get_files;
  labels_file ← lift (load_name locals "labels_file");
  ret (zip (images fs images_file) (labels fs labels_file)).

(** Lines 115-123. *)
Definition train_dataset (directory : string) : io world (Dataset sample) :=
  dataset directory "train-images-idx3-ubyte" "train-labels-idx1-ubyte".

Definition test_dataset (directory : string) : io world (Dataset sample) :=
  dataset directory "t10k-images-idx3-ubyte" "t10k-labels-idx1-ubyte".

(** ** Vocabulary of the statements *)

(** Four bytes of a file and the unsigned integer they spell, most
    significant byte first. *)
Definition word : Type := byte * byte * byte * byte.

Definition word_bytes (w : word) : list byte :=
  let '(b0, b1, b2, b3) := w in [b0; b1; b2; b3].

Definition uint32_be (w : word) : Z :=
  let '(b0, b1, b2, b3) := w in
  byte_val b0 * 2 ^ 24 + byte_val b1 * 2 ^ 16 + byte_val b2 * 2 ^ 8 + byte_val b3.

(** The 16 bytes of an IDX image header and the 8 bytes of a label header. *)
Definition image_header (magic item_count rows cols : word) : list byte :=
  word_bytes magic ++ word_bytes item_count ++ word_bytes rows ++ word_bytes cols.

Definition label_header (magic item_count : word) : list byte :=
  word_bytes magic ++ word_bytes item_count.

(** What the image checker answers once it has read [magic], [rows] and
    [cols] from the file called [fname]. *)
Definition image_verdict (fname : string) (magic rows cols : Z) : result value :=
  if negb (magic =? 2051) then
    Raise (ValueError (Invalid_magic_number magic fname))
  else if negb (rows =? 28) || negb (cols =? 28) then
    Raise (ValueError (Expected_28x28_images fname rows cols))
  else Return PyNone.

Definition labels_verdict (fname : string) (magic : Z) : result value :=
  if negb (magic =? 2049) then
    Raise (ValueError (Invalid_magic_number magic fname))
  else Return PyNone.

(** The stream [f] with its cursor [n] bytes further. *)
Definition advance (n : nat) (f : bytestream) : bytestream :=
  mkStream (name f) (buffer f) (pos f + n).

(** A computation on a stream that leaves the file itself alone. *)
Definition preserves_file {A} (c : io bytestream A) : Prop :=
  forall f, name (snd (c f)) = name f /\ buffer (snd (c f)) = buffer f.

(** The float32 constants 0.0 and 1.0. *)
Definition f32_zero : float32 := S754_zero false.
Definition f32_one : float32 := S754_finite false 8388608 (-23).

(** [x] is the float32 nearest to the rational [num / den]: either both are
    zero, or [x = m * 2^e] with a full 24-bit significand [m] and
    [|x - num/den|] below half a unit in the last place, [2^e / 2]. *)
Definition nearest_quotient (x : float32) (num den : Z) : bool :=
  match x with
  | S754_zero false => num =? 0
  | S754_finite false m e =>
      (2 ^ 23 <=? Z.pos m) && (Z.pos m <? 2 ^ 24) && (e <=? 0)
      && (2 * Z.abs (den * Z.pos m - num * 2 ^ (- e)) <? den)
  | _ => false
  end.

(** How the reader ends on what follows the last complete record: cleanly
    on nothing, with a failure on part of a record. *)
Definition end_of_file {S} (tail : list byte) : ending S :=
  match tail with
  | [] => Exhausted
  | _ :: _ => Failed TruncatedReadError
  end.

(** The decoded form of one complete image record. *)
Definition pixels (record : list byte) : list float32 := normalize <$> record.

(** The image decoder's contract as the specification words it, for the
    count a header declares: enough requests produce exactly [count]
    elements and then the end, or fail with [TruncatedReadError]. *)
Definition decode_images_contract (fs : gmap string (list byte))
    (images_file : string) (count : nat) : Prop :=
  forall n, (count < n)%nat ->
    (length (fst (consume (images fs images_file) n)) = count
     /\ snd (consume (images fs images_file) n) = Exhausted)
    \/ snd (consume (images fs images_file) n) = Failed TruncatedReadError.

(** What [read32] raises when [leftover] bytes, fewer than four, are left:
    numpy's [IndexError] on none, its [ValueError] on one to three. *)
Definition short_read_error (leftover : nat) : exception :=
  match leftover with
  | O => IndexError
  | S _ => ValueError Buffer_size_not_multiple_of_element_size
  end.

(** The URL [download] fetches a file of the distribution from (line 49). *)
Definition mnist_url (filename : string) : string :=
  String.append "http://yann.lecun.com/exdb/mnist/" (String.append filename ".gz").

(** The decoded form of the labels that follow a label header. *)
Definition label_values (body : list byte) : list Z := byte_val <$> body.

(** The 256 byte values, in order. *)
Definition all_bytes : list byte :=
  omap (fun n => Byte.of_N (N.of_nat n)) (seq 0 256).

(** On the bytes of [bs], a larger byte always decodes to a larger float32;
    each byte is decoded once, into a table, and the table is compared
    entry by entry. *)
Definition normalize_increasing_on (bs : list byte) : bool :=
  let table := List.map (fun b => (byte_val b, normalize b)) bs in
  forallb (fun p1 =>
    forallb (fun p2 =>
      implb (fst p1 <? fst p2) (SFltb (snd p1) (snd p2))) table) table.

(** *** Sample files *)

Definition w2051 : word := (x00, x00, x08, x03).
Definition w2049 : word := (x00, x00, x08, x01).
Definition w28 : word := (x00, x00, x00, x1c).
Definition w27 : word := (x00, x00, x00, x1b).
Definition w1 : word := (x00, x00, x00, x01).
Definition w2 : word := (x00, x00, x00, x02).
Definition w3 : word := (x00, x00, x00, x03).

(** A header that declares two images, followed by one record. *)
Definition one_of_two : list byte :=
  image_header w2051 w2 w28 w28 ++ repeat xff 784.

(** A header that declares two images, followed by one record and a half. *)
Definition one_and_a_half : list byte :=
  image_header w2051 w2 w28 w28 ++ repeat xff 784 ++ repeat x80 392.

(** Three labels. *)
Definition three_labels : list byte := label_header w2049 w3 ++ [x07; x01; x04].

(** A disk where the labels sit under the images' name. *)
Definition mislabelled : world :=
  mkWorld {[ "/data/images" := label_header w2049 w3 ++ label_header w2049 w3 ]} ∅.

(** One image of 784 bytes 255 with the label 7. *)
Definition scenario : world :=
  mkWorld {[ "/data/images" := image_header w2051 w1 w28 w28 ++ repeat xff 784;
             "/data/labels" := label_header w2049 w1 ++ [x07] ]} ∅.

(** A disk with one valid file of images. *)
Definition one_image_disk : world :=
  mkWorld {[ "/data/images" := one_of_two ]} ∅.

(** ** The big-endian reader *)

Lemma byte_val_range (b : byte) : 0 <= byte_val b < 256.
Proof.
  unfold byte_val. pose proof (Byte.to_N_bounded b) as Hb.
  split; [apply N2Z.is_nonneg | ].
  apply N2Z.inj_le in Hb. simpl in Hb. lia.
Qed.

Lemma from_bytes_be_word (w : word) : from_bytes_be (word_bytes w) = uint32_be w.
Proof. destruct w as [[[b0 b1] b2] b3]. unfold from_bytes_be, uint32_be. simpl. lia. Qed.

Lemma uint32_be_range (w : word) : 0 <= uint32_be w < 2 ^ 32.
Proof.
  destruct w as [[[b0 b1] b2] b3]. unfold uint32_be.
  pose proof (byte_val_range b0). pose proof (byte_val_range b1).
  pose proof (byte_val_range b2). pose proof (byte_val_range b3). lia.
Qed.

Lemma read32_word (f : bytestream) (w : word) (rest : list byte) :
  remaining f = word_bytes w ++ rest ->
  read32 f = (Return (uint32_be w), advance 4 f).
Proof.
  intros Hrem. rewrite <- from_bytes_be_word.
  destruct w as [[[b0 b1] b2] b3].
  unfold read32, mbind, io_bind, bind, read. rewrite Hrem. reflexivity.
Qed.

Lemma read32_empty (f : bytestream) :
  remaining f = [] -> read32 f = (Raise IndexError, f).
Proof.
  intros Hrem. unfold read32, mbind, io_bind, bind, read. rewrite Hrem. simpl.
  rewrite Nat.add_0_r. destruct f; reflexivity.
Qed.

Lemma read32_partial (f : bytestream) :
  (0 < length (remaining f) < 4)%nat ->
  read32 f = (Raise (ValueError Buffer_size_not_multiple_of_element_size),
              advance (length (remaining f)) f).
Proof.
  intros Hlen. unfold read32, mbind, io_bind, bind, read.
  destruct (remaining f) as [|b0 [|b1 [|b2 [|b3 rest]]]]; simpl in *;
    try lia; reflexivity.
Qed.

(** C5: on a stream with at least four bytes left, [read32] returns the
    unsigned big-endian value of exactly the next four bytes, a number below
    2^32, and moves the cursor four bytes on, the file's name and bytes
    untouched; with fewer than four bytes left it fails: with numpy's
    [IndexError] on none, with numpy's [ValueError] on one to three. *)
Theorem read32_contract (f : bytestream) :
  (forall w rest, remaining f = word_bytes w ++ rest ->
     read32 f = (Return (uint32_be w), mkStream (name f) (buffer f) (pos f + 4))
     /\ 0 <= uint32_be w < 2 ^ 32)
  /\ ((length (remaining f) < 4)%nat ->
      exists e, fst (read32 f) = Raise e
        /\ (e = IndexError
            \/ e = ValueError Buffer_size_not_multiple_of_element_size)
        /\ name (snd (read32 f)) = name f
        /\ buffer (snd (read32 f)) = buffer f).
Proof.
  split.
  - intros w rest Hrem. split; [ | apply uint32_be_range].
    apply (read32_word f w rest Hrem).
  - intros Hshort. destruct (remaining f) as [|b bs] eqn:Hrem.
    + exists IndexError. rewrite (read32_empty f Hrem). auto.
    + assert (Hlen : (0 < length (remaining f) < 4)%nat)
        by (rewrite Hrem; simpl in *; lia).
      exists (ValueError Buffer_size_not_multiple_of_element_size).
      rewrite (read32_partial f Hlen). simpl. auto.
Qed.

Lemma read32_contract_witness :
  read32 (mkStream "t10k-images-idx3-ubyte" (image_header w2051 w2 w28 w28) 4)
  = (Return 2, mkStream "t10k-images-idx3-ubyte" (image_header w2051 w2 w28 w28) 8)
  /\ exists e,
       fst (read32 (mkStream "t10k-images-idx3-ubyte" (word_bytes w2051) 2))
       = Raise e.
Proof.
  split.
  - apply (proj1 (read32_contract
      (mkStream "t10k-images-idx3-ubyte" (image_header w2051 w2 w28 w28) 4))
      w2 (word_bytes w28 ++ word_bytes w28)).
    reflexivity.
  - destruct (proj2 (read32_contract
      (mkStream "t10k-images-idx3-ubyte" (word_bytes w2051) 2)))
      as [e [He _]].
    + simpl. lia.
    + exists e. exact He.
Defined.

(** ** Header validation *)

Lemma bind_read32 {A} (k : Z -> io bytestream A) (f : bytestream) (w : word)
    (rest : list byte) :
  remaining f = word_bytes w ++ rest ->
  (read32 ≫= k) f = k (uint32_be w) (advance 4 f).
Proof.
  intros Hrem. unfold mbind, io_bind, bind.
  rewrite (read32_word f w rest Hrem). reflexivity.
Qed.

Lemma check_image_stream_header (fname : string) (magic count rows cols : word)
    (rest : list byte) :
  check_image_stream (mkStream fname (image_header magic count rows cols ++ rest) 0)
  = (image_verdict fname (uint32_be magic) (uint32_be rows) (uint32_be cols),
     mkStream fname (image_header magic count rows cols ++ rest) 16).
Proof.
  unfold check_image_stream, image_header.
  rewrite (bind_read32 _ _ magic
             (word_bytes count ++ word_bytes rows ++ word_bytes cols ++ rest))
    by (unfold remaining; simpl; rewrite <- ?app_assoc; reflexivity).
  rewrite (bind_read32 _ _ count (word_bytes rows ++ word_bytes cols ++ rest))
    by (destruct magic as [[[m0 m1] m2] m3]; unfold remaining; simpl;
        rewrite <- ?app_assoc; reflexivity).
  rewrite (bind_read32 _ _ rows (word_bytes cols ++ rest))
    by (destruct magic as [[[m0 m1] m2] m3], count as [[[n0 n1] n2] n3];
        unfold remaining; simpl; rewrite <- ?app_assoc; reflexivity).
  rewrite (bind_read32 _ _ cols rest)
    by (destruct magic as [[[m0 m1] m2] m3], count as [[[n0 n1] n2] n3],
          rows as [[[r0 r1] r2] r3];
        unfold remaining; simpl; rewrite <- ?app_assoc; reflexivity).
  unfold image_verdict, advance. simpl.
  destruct (negb (uint32_be magic =? 2051)); [reflexivity | ].
  destruct (negb (uint32_be rows =? 28) || negb (uint32_be cols =? 28));
    reflexivity.
Qed.

Lemma check_labels_stream_header (fname : string) (magic count : word)
    (rest : list byte) :
  check_labels_stream (mkStream fname (label_header magic count ++ rest) 0)
  = (labels_verdict fname (uint32_be magic),
     mkStream fname (label_header magic count ++ rest) 8).
Proof.
  unfold check_labels_stream, label_header.
  rewrite (bind_read32 _ _ magic (word_bytes count ++ rest))
    by (unfold remaining; simpl; rewrite <- ?app_assoc; reflexivity).
  rewrite (bind_read32 _ _ count rest)
    by (destruct magic as [[[m0 m1] m2] m3]; unfold remaining; simpl;
        rewrite <- ?app_assoc; reflexivity).
  unfold labels_verdict, advance. simpl.
  destruct (negb (uint32_be magic =? 2049)); reflexivity.
Qed.

Lemma check_image_file_header_verdict (fs : gmap string (list byte))
    (filename : string) (magic count rows cols : word) (rest : list byte) :
  fs !! filename = Some (image_header magic count rows cols ++ rest) ->
  check_image_file_header fs filename
  = image_verdict filename (uint32_be magic) (uint32_be rows) (uint32_be cols).
Proof.
  intros Hfile. unfold check_image_file_header, with_open, gfile_Open.
  rewrite Hfile, check_image_stream_header. reflexivity.
Qed.

Lemma check_labels_file_header_verdict (fs : gmap string (list byte))
    (filename : string) (magic count : word) (rest : list byte) :
  fs !! filename = Some (label_header magic count ++ rest) ->
  check_labels_file_header fs filename = labels_verdict filename (uint32_be magic).
Proof.
  intros Hfile. unfold check_labels_file_header, with_open, gfile_Open.
  rewrite Hfile, check_labels_stream_header. reflexivity.
Qed.

(** C1: for a file that starts with the four big-endian integers
    (magic, item_count, rows, cols), [check_image_file_header] raises the
    invalid-magic [ValueError] exactly when magic is not 2051, whatever the
    dimensions are; with magic 2051 it raises the 28x28 [ValueError] exactly
    when rows or cols is not 28; it raises nothing else, and it succeeds
    exactly when magic is 2051 and both dimensions are 28. *)
Theorem check_image_file_header_failures (fs : gmap string (list byte))
    (filename : string) (magic count rows cols : word) (rest : list byte) :
  fs !! filename = Some (image_header magic count rows cols ++ rest) ->
  (check_image_file_header fs filename
     = Raise (ValueError (Invalid_magic_number (uint32_be magic) filename))
   <-> uint32_be magic <> 2051)
  /\ (uint32_be magic = 2051 ->
      (check_image_file_header fs filename
         = Raise (ValueError (Expected_28x28_images filename
                                (uint32_be rows) (uint32_be cols)))
       <-> uint32_be rows <> 28 \/ uint32_be cols <> 28))
  /\ (forall e, check_image_file_header fs filename = Raise e ->
        e = ValueError (Invalid_magic_number (uint32_be magic) filename)
        \/ (uint32_be magic = 2051
            /\ e = ValueError (Expected_28x28_images filename
                                 (uint32_be rows) (uint32_be cols))))
  /\ (check_image_file_header fs filename = Return PyNone
      <-> uint32_be magic = 2051 /\ uint32_be rows = 28 /\ uint32_be cols = 28).
Proof.
  intros Hfile.
  rewrite (check_image_file_header_verdict fs filename magic count rows cols
             rest Hfile).
  unfold image_verdict.
  destruct (Z.eqb_spec (uint32_be magic) 2051) as [Hm | Hm];
    destruct (Z.eqb_spec (uint32_be rows) 28) as [Hr | Hr];
    destruct (Z.eqb_spec (uint32_be cols) 28) as [Hc | Hc]; simpl;
    repeat split; intros; try congruence; try lia; try tauto;
    try (left; congruence); try (right; split; congruence);
    try (destruct H; congruence); try (exfalso; tauto).
Qed.

Lemma check_image_file_header_failures_witness :
  check_image_file_header
    {[ "train-images-idx3-ubyte" := image_header w2051 w2 w28 w27 ]}
    "train-images-idx3-ubyte"
  = Raise (ValueError (Expected_28x28_images "train-images-idx3-ubyte" 28 27)).
Proof.
  pose proof (check_image_file_header_failures
    {[ "train-images-idx3-ubyte" := image_header w2051 w2 w28 w27 ]}
    "train-images-idx3-ubyte" w2051 w2 w28 w27 [] eq_refl) as [_ [Hdims _]].
  apply (Hdims eq_refl). right. vm_compute. discriminate.
Defined.

(** C2, as stated, fails: on a valid image header that declares two 28x28
    images the checker does not hand back (2, 28, 28), and on a valid label
    header that declares three items it does not hand back 3. *)
Lemma checkers_return_no_count :
  check_image_file_header {[ "train-images-idx3-ubyte" := one_of_two ]}
    "train-images-idx3-ubyte" <> Return (PyTuple [2; 28; 28])
  /\ check_labels_file_header {[ "train-labels-idx1-ubyte" := three_labels ]}
       "train-labels-idx1-ubyte" <> Return (PyInt 3).
Proof. split; vm_compute; discriminate. Qed.

(** C2, amended: on every valid image header the checker returns [None],
    having read the item count and the dimensions on its way to offset 16;
    on every valid label header it returns [None] with the cursor at
    offset 8. Neither hands the parsed fields back. *)
Theorem checkers_return_None (fs : gmap string (list byte)) (filename : string)
    (magic count rows cols : word) (rest : list byte) :
  (uint32_be magic = 2051 -> uint32_be rows = 28 -> uint32_be cols = 28 ->
   fs !! filename = Some (image_header magic count rows cols ++ rest) ->
   check_image_file_header fs filename = Return PyNone
   /\ check_image_stream
        (mkStream filename (image_header magic count rows cols ++ rest) 0)
      = (Return PyNone,
         mkStream filename (image_header magic count rows cols ++ rest) 16))
  /\ (uint32_be magic = 2049 ->
      fs !! filename = Some (label_header magic count ++ rest) ->
      check_labels_file_header fs filename = Return PyNone
      /\ check_labels_stream
           (mkStream filename (label_header magic count ++ rest) 0)
         = (Return PyNone,
            mkStream filename (label_header magic count ++ rest) 8)).
Proof.
  split.
  - intros Hm Hr Hc Hfile.
    rewrite (check_image_file_header_verdict _ _ _ _ _ _ _ Hfile),
      check_image_stream_header.
    unfold image_verdict. rewrite Hm, Hr, Hc. split; reflexivity.
  - intros Hm Hfile.
    rewrite (check_labels_file_header_verdict _ _ _ _ _ Hfile),
      check_labels_stream_header.
    unfold labels_verdict. rewrite Hm. split; reflexivity.
Qed.

Lemma checkers_return_None_witness :
  check_image_file_header {[ "train-images-idx3-ubyte" := one_of_two ]}
    "train-images-idx3-ubyte" = Return PyNone
  /\ check_labels_file_header {[ "train-images-idx3-ubyte" := three_labels ]}
       "train-images-idx3-ubyte" = Return PyNone.
Proof.
  split.
  - apply (proj1 (checkers_return_None
      {[ "train-images-idx3-ubyte" := one_of_two ]} "train-images-idx3-ubyte"
      w2051 w2 w28 w28 (repeat xff 784))); reflexivity.
  - apply (proj2 (checkers_return_None
      {[ "train-images-idx3-ubyte" := three_labels ]} "train-images-idx3-ubyte"
      w2049 w3 w28 w28 [x07; x01; x04])); reflexivity.
Defined.

(** *** Validation leaves the file alone *)

Lemma preserves_bind {A B} (c : io bytestream A) (k : A -> io bytestream B) :
  preserves_file c -> (forall a, preserves_file (k a)) -> preserves_file (c ≫= k).
Proof.
  intros Hc Hk f. unfold mbind, io_bind, bind.
  destruct (Hc f) as [Hn Hb]. destruct (c f) as [[a | e] f']; simpl in *.
  - destruct (Hk a f') as [Hn' Hb']. split; congruence.
  - split; assumption.
Qed.

Lemma preserves_read (n : nat) : preserves_file (read n).
Proof. intros f. split; reflexivity. Qed.

Lemma preserves_lift {A} (r : result A) : preserves_file (lift r).
Proof. intros f. split; reflexivity. Qed.

Lemma preserves_ret {A} (a : A) : preserves_file (ret a).
Proof. intros f. split; reflexivity. Qed.

Lemma preserves_raise {A} (e : exception) : preserves_file (@raise bytestream A e).
Proof. intros f. split; reflexivity. Qed.

Lemma preserves_get_name : preserves_file get_name.
Proof. intros f. split; reflexivity. Qed.

Create HintDb preserves.
#[local] Hint Resolve preserves_read preserves_lift preserves_ret
  preserves_raise preserves_get_name : preserves.

Lemma preserves_read32 : preserves_file read32.
Proof.
  unfold read32. repeat (apply preserves_bind; [ | intros ?]);
    auto with preserves.
Qed.

#[local] Hint Resolve preserves_read32 : preserves.

Lemma preserves_check_image_stream : preserves_file check_image_stream.
Proof.
  unfold check_image_stream.
  do 4 (apply preserves_bind; [auto with preserves | intros ?]).
  repeat match goal with
         | |- preserves_file (if ?b then _ else _) => destruct b
         | |- preserves_file (_ ≫= _) => apply preserves_bind; [ | intros ?]
         end; auto with preserves.
Qed.

Lemma preserves_check_labels_stream : preserves_file check_labels_stream.
Proof.
  unfold check_labels_stream.
  do 2 (apply preserves_bind; [auto with preserves | intros ?]).
  repeat match goal with
         | |- preserves_file (if ?b then _ else _) => destruct b
         | |- preserves_file (_ ≫= _) => apply preserves_bind; [ | intros ?]
         end; auto with preserves.
Qed.

Lemma rerun_from_start {A} (c : io bytestream A) (f : bytestream) :
  preserves_file c -> c (seek 0 (snd (c (seek 0 f)))) = c (seek 0 f).
Proof.
  intros Hc. destruct (Hc (seek 0 f)) as [Hn Hb].
  unfold seek at 1. rewrite Hn, Hb. reflexivity.
Qed.

(** C8: header validation is idempotent. On any open file, validating from
    offset 0, moving the cursor back to 0 and validating again gives the
    same return value or the same error, and the same file; and two calls
    by file name on an unmodified disk give identical results and leave the
    disk as it was. *)
Theorem header_validation_idempotent :
  (forall f : bytestream,
     check_image_stream (seek 0 (snd (check_image_stream (seek 0 f))))
     = check_image_stream (seek 0 f))
  /\ (forall f : bytestream,
        check_labels_stream (seek 0 (snd (check_labels_stream (seek 0 f))))
        = check_labels_stream (seek 0 f))
  /\ (forall (w : world) (filename : string),
        let first := on_files (fun fs => check_image_file_header fs filename) w in
        let second :=
          on_files (fun fs => check_image_file_header fs filename) (snd first) in
        fst second = fst first /\ snd second = w)
  /\ (forall (w : world) (filename : string),
        let first := on_files (fun fs => check_labels_file_header fs filename) w in
        let second :=
          on_files (fun fs => check_labels_file_header fs filename) (snd first) in
        fst second = fst first /\ snd second = w).
Proof.
  repeat split.
  - intros f. apply rerun_from_start, preserves_check_image_stream.
  - intros f. apply rerun_from_start, preserves_check_labels_stream.
Qed.

(** C10: the verdict of the image checker does not depend on the declared
    item count. Two files that differ only in bytes 4-7 get the same
    answer, success or the same error, short files included; and a header
    with magic 2051 and 28x28 dimensions passes whatever count it declares
    and whatever follows it. *)
Theorem image_check_ignores_item_count (fs1 fs2 : gmap string (list byte))
    (filename : string) (pre count1 count2 post : list byte) :
  length pre = 4%nat -> length count1 = 4%nat -> length count2 = 4%nat ->
  fs1 !! filename = Some (pre ++ count1 ++ post) ->
  fs2 !! filename = Some (pre ++ count2 ++ post) ->
  check_image_file_header fs1 filename = check_image_file_header fs2 filename
  /\ (forall (fs : gmap string (list byte)) (count : word) (rest : list byte),
        fs !! filename = Some (image_header w2051 count w28 w28 ++ rest) ->
        check_image_file_header fs filename = Return PyNone).
Proof.
  intros Hpre Hc1 Hc2 Hf1 Hf2. split.
  - unfold check_image_file_header, with_open, gfile_Open. rewrite Hf1, Hf2.
    destruct pre as [|m0 [|m1 [|m2 [|m3 [|? ?]]]]]; try discriminate.
    destruct count1 as [|n0 [|n1 [|n2 [|n3 [|? ?]]]]]; try discriminate.
    destruct count2 as [|k0 [|k1 [|k2 [|k3 [|? ?]]]]]; try discriminate.
    destruct post as [|r0 [|r1 [|r2 [|r3 [|c0 [|c1 [|c2 [|c3 rest]]]]]]]];
      try reflexivity.
    change ([m0; m1; m2; m3] ++ [n0; n1; n2; n3]
            ++ r0 :: r1 :: r2 :: r3 :: c0 :: c1 :: c2 :: c3 :: rest)
      with (image_header (m0, m1, m2, m3) (n0, n1, n2, n3) (r0, r1, r2, r3)
              (c0, c1, c2, c3) ++ rest).
    change ([m0; m1; m2; m3] ++ [k0; k1; k2; k3]
            ++ r0 :: r1 :: r2 :: r3 :: c0 :: c1 :: c2 :: c3 :: rest)
      with (image_header (m0, m1, m2, m3) (k0, k1, k2, k3) (r0, r1, r2, r3)
              (c0, c1, c2, c3) ++ rest).
    rewrite !check_image_stream_header. reflexivity.
  - intros fs count rest Hfile.
    rewrite (check_image_file_header_verdict _ _ _ _ _ _ _ Hfile). reflexivity.
Qed.

Lemma image_check_ignores_item_count_witness :
  check_image_file_header
    {[ "t10k-images-idx3-ubyte" := image_header w2051 w2 w28 w27 ]}
    "t10k-images-idx3-ubyte"
  = check_image_file_header
      {[ "t10k-images-idx3-ubyte" := image_header w2051 w3 w28 w27 ]}
      "t10k-images-idx3-ubyte".
Proof.
  apply (image_check_ignores_item_count
    {[ "t10k-images-idx3-ubyte" := image_header w2051 w2 w28 w27 ]}
    {[ "t10k-images-idx3-ubyte" := image_header w2051 w3 w28 w27 ]}
    "t10k-images-idx3-ubyte"
    (word_bytes w2051) (word_bytes w2) (word_bytes w3)
    (word_bytes w28 ++ word_bytes w27)); reflexivity.
Defined.

(** ** Normalization *)

Lemma decode_image_pixels (record : list byte) :
  length record = 784%nat -> decode_image record = Return (pixels record).
Proof.
  intros Hlen. unfold decode_image, decode_raw, reshape, pixels.
  rewrite !length_fmap, Hlen. simpl.
  rewrite <- !list_fmap_compose. reflexivity.
Qed.

Lemma decode_image_wrong_size (record : list byte) :
  length record <> 784%nat -> decode_image record = Raise InvalidArgumentError.
Proof.
  intros Hlen. unfold decode_image, decode_raw, reshape.
  rewrite !length_fmap.
  destruct (Nat.eqb_spec (length record) 784); [contradiction | reflexivity].
Qed.

Lemma normalize_unit_interval (b : byte) :
  SFleb f32_zero (normalize b) = true /\ SFleb (normalize b) f32_one = true.
Proof. destruct b; vm_compute; split; reflexivity. Qed.

Lemma normalize_nearest (b : byte) :
  nearest_quotient (normalize b) (byte_val b) 255 = true.
Proof. destruct b; vm_compute; reflexivity. Qed.

(** C4: a pixel byte [b] decodes to the float32 quotient of [b] by 255.0,
    which is the float32 nearest to the rational b/255; byte 0 decodes to
    exactly 0.0, byte 255 to exactly 1.0, every decoded pixel lies between
    0.0 and 1.0, and a record decodes pixel by pixel. *)
Theorem normalize_exact (b : byte) :
  normalize b = SFdiv 24 128 (cast_float32 (byte_val b)) (cast_float32 255)
  /\ nearest_quotient (normalize b) (byte_val b) 255 = true
  /\ normalize x00 = f32_zero
  /\ normalize xff = f32_one
  /\ SFleb f32_zero (normalize b) = true
  /\ SFleb (normalize b) f32_one = true
  /\ (forall record, length record = 784%nat ->
        decode_image record = Return (normalize <$> record)).
Proof.
  split; [reflexivity | ].
  split; [apply normalize_nearest | ].
  split; [vm_compute; reflexivity | ].
  split; [vm_compute; reflexivity | ].
  split; [apply normalize_unit_interval | ].
  split; [apply normalize_unit_interval | ].
  exact decode_image_pixels.
Qed.

Example nearest_quotient_discriminates :
  nearest_quotient (normalize x01) 2 255 = false
  /\ nearest_quotient f32_one 254 255 = false.
Proof. split; vm_compute; reflexivity. Qed.

Lemma normalize_exact_witness :
  decode_image (repeat xff 784) = Return (normalize <$> repeat xff 784).
Proof.
  apply (proj2 (proj2 (proj2 (proj2 (proj2 (proj2 (normalize_exact xff))))))).
  reflexivity.
Defined.

(** ** The record reader *)

Lemma advance_0 (f : bytestream) : advance 0 f = f.
Proof. destruct f. unfold advance. simpl. rewrite Nat.add_0_r. reflexivity. Qed.

Lemma advance_advance (n m : nat) (f : bytestream) :
  advance m (advance n f) = advance (n + m) f.
Proof. unfold advance. simpl. rewrite Nat.add_assoc. reflexivity. Qed.

Lemma remaining_advance (n : nat) (f : bytestream) :
  remaining (advance n f) = drop n (remaining f).
Proof. unfold remaining, advance. simpl. rewrite drop_drop. reflexivity. Qed.

Lemma remaining_nonempty (f : bytestream) :
  remaining f <> [] -> (pos f <? length (buffer f))%nat = true.
Proof.
  intros Hne. apply Nat.ltb_lt.
  destruct (Nat.lt_ge_cases (pos f) (length (buffer f))) as [Hlt | Hge];
    [exact Hlt | ].
  exfalso. apply Hne. apply length_zero_iff_nil.
  unfold remaining. rewrite length_drop. lia.
Qed.

Lemma remaining_empty (f : bytestream) :
  remaining f = [] -> (pos f <? length (buffer f))%nat = false.
Proof.
  intros Hnil. apply Nat.ltb_ge.
  apply (f_equal length) in Hnil. unfold remaining in Hnil.
  rewrite length_drop in Hnil. simpl in Hnil. lia.
Qed.

Lemma next_record_yield (rb : nat) (f : bytestream) (r rest : list byte) :
  (0 < rb)%nat -> length r = rb -> remaining f = r ++ rest ->
  next_record rb f = Yield r (Some (advance rb f)).
Proof.
  intros Hrb Hlen Hrem. unfold next_record.
  rewrite remaining_nonempty
    by (rewrite Hrem; destruct r; [simpl in Hlen; lia | discriminate]).
  unfold read. rewrite Hrem, (take_app_length' r rest rb) by congruence.
  rewrite Hlen, Nat.ltb_irrefl. reflexivity.
Qed.

Lemma next_record_truncated (rb : nat) (f : bytestream) :
  (0 < length (remaining f) < rb)%nat ->
  next_record rb f = Error TruncatedReadError.
Proof.
  intros [Hpos Hlt]. unfold next_record.
  rewrite remaining_nonempty by (destruct (remaining f); [simpl in Hpos; lia | discriminate]).
  unfold read. rewrite length_take.
  replace (rb `min` length (remaining f))%nat with (length (remaining f)) by lia.
  apply Nat.ltb_lt in Hlt. rewrite Hlt. reflexivity.
Qed.

Lemma next_record_end (rb : nat) (f : bytestream) :
  remaining f = [] -> next_record rb f = EndOfSequence.
Proof.
  intros Hnil. unfold next_record. rewrite (remaining_empty f Hnil). reflexivity.
Qed.

Section Reader.
Variable fs : gmap string (list byte).
Variable filename : string.
Variables rb h : nat.
Hypothesis rb_pos : (0 < rb)%nat.

Local Abbreviation reader := (FixedLengthRecordDataset fs filename rb h).

Lemma concat_records_length (recs : list (list byte)) :
  Forall (fun r => length r = rb) recs ->
  length (concat recs) = (rb * length recs)%nat.
Proof.
  induction 1 as [|r recs Hr _ IH]; simpl; [lia | ].
  rewrite length_app, IH, Hr. lia.
Qed.

Lemma reader_prefix (recs : list (list byte)) :
  forall (f : bytestream) (tail : list byte) (k : nat),
    Forall (fun r => length r = rb) recs ->
    remaining f = concat recs ++ tail ->
    (k <= length recs)%nat ->
    get_many reader k (Some f)
    = (take k recs, Suspended (Some (advance (rb * k) f))).
Proof.
  induction recs as [|r recs IH]; intros f tail k Hall Hrem Hk.
  - assert (k = 0%nat) as -> by (simpl in Hk; lia).
    simpl. rewrite Nat.mul_0_r, advance_0. reflexivity.
  - destruct k as [|k].
    + simpl. rewrite Nat.mul_0_r, advance_0. reflexivity.
    + apply Forall_cons in Hall as [Hr Hall].
      simpl in Hrem. rewrite <- app_assoc in Hrem.
      cbn [get_many reader FixedLengthRecordDataset get_next].
      rewrite (next_record_yield rb f r _ rb_pos Hr Hrem).
      rewrite (IH (advance rb f) tail k Hall).
      * rewrite advance_advance.
        replace (rb + rb * k)%nat with (rb * S k)%nat by lia. reflexivity.
      * rewrite remaining_advance, Hrem.
        apply drop_app_length'. congruence.
      * simpl in Hk. lia.
Qed.

Lemma reader_all (recs : list (list byte)) :
  forall (f : bytestream) (tail : list byte) (n : nat),
    Forall (fun r => length r = rb) recs ->
    remaining f = concat recs ++ tail ->
    (length tail < rb)%nat ->
    (length recs < n)%nat ->
    get_many reader n (Some f) = (recs, end_of_file tail).
Proof.
  induction recs as [|r recs IH]; intros f tail n Hall Hrem Htail Hn.
  - destruct n as [|n]; [simpl in Hn; lia | ].
    simpl in Hrem. cbn [get_many reader FixedLengthRecordDataset get_next].
    destruct tail as [|t tail].
    + rewrite (next_record_end rb f Hrem). reflexivity.
    + rewrite next_record_truncated; [reflexivity | ].
      rewrite Hrem. simpl in *. lia.
  - destruct n as [|n]; [simpl in Hn; lia | ].
    apply Forall_cons in Hall as [Hr Hall].
    simpl in Hrem. rewrite <- app_assoc in Hrem.
    cbn [get_many reader FixedLengthRecordDataset get_next].
    rewrite (next_record_yield rb f r _ rb_pos Hr Hrem).
    rewrite (IH (advance rb f) tail n Hall); [reflexivity | | exact Htail | ].
    + rewrite remaining_advance, Hrem. apply drop_app_length'. congruence.
    + simpl in Hn. lia.
Qed.

Lemma reader_start (content : list byte) (n : nat) :
  fs !! filename = Some content ->
  get_many reader (S n) (start reader)
  = get_many reader (S n) (Some (mkStream filename content h)).
Proof.
  intros Hfile. cbn [get_many reader FixedLengthRecordDataset get_next start].
  unfold gfile_Open. rewrite Hfile. reflexivity.
Qed.

End Reader.

(** ** Map and zip over iterators *)

Lemma get_many_map {A B} (f : A -> result B) (g : A -> B) (d : Dataset A) :
  forall (n : nat) (s : iter d) (xs : list A) (e : ending (iter d)),
    get_many d n s = (xs, e) ->
    Forall (fun x => f x = Return (g x)) xs ->
    get_many (map f d) n s = (g <$> xs, e).
Proof.
  induction n as [|n IH]; intros s xs e Hrun Hall; simpl in *.
  - inversion Hrun; subst. reflexivity.
  - destruct (get_next d s) as [a s' | | err]; try (inversion Hrun; subst; reflexivity).
    destruct (get_many d n s') as [xs' e'] eqn:Hrest.
    inversion Hrun; subst. apply Forall_cons in Hall as [Ha Hall].
    rewrite Ha, (IH s' xs' e Hrest Hall). reflexivity.
Qed.

Lemma consume_get_many {A} (d : Dataset A) (n : nat) (xs : list A)
    (e : ending (iter d)) :
  get_many d n (start d) = (xs, e) -> consume d n = (xs, forget e).
Proof. intros Hrun. unfold consume. rewrite Hrun. reflexivity. Qed.

Lemma consume_exhausted {A} (d : Dataset A) (n : nat) (xs : list A) :
  consume d n = (xs, Exhausted) -> get_many d n (start d) = (xs, Exhausted).
Proof.
  unfold consume. destruct (get_many d n (start d)) as [ys [s | | e]]; simpl;
    intros Heq; inversion Heq; reflexivity.
Qed.

Section Zip.
Context {A B : Type}.
Variable da : Dataset A.
Variable db : Dataset B.

Lemma get_many_zip_elements :
  forall (n : nat) (sa : iter da) (sb : iter db),
    fst (get_many (zip da db) n (sa, sb))
    = zip_with pair (fst (get_many da n sa)) (fst (get_many db n sb)).
Proof.
  induction n as [|n IH]; intros sa sb; [reflexivity | ].
  cbn [get_many zip get_next].
  destruct (get_next da sa) as [a sa' | | ea]; [ | reflexivity | reflexivity].
  destruct (get_next db sb) as [b sb' | | eb].
  - specialize (IH sa' sb').
    destruct (get_many (zip da db) n (sa', sb')) as [ps ep].
    destruct (get_many da n sa') as [xs ex].
    destruct (get_many db n sb') as [ys ey].
    simpl in *. rewrite IH. reflexivity.
  - destruct (get_many da n sa') as [xs ex]. reflexivity.
  - destruct (get_many da n sa') as [xs ex]. reflexivity.
Qed.

Lemma get_many_zip_suspended :
  forall (n : nat) (sa sa' : iter da) (sb sb' : iter db) xs ys,
    get_many da n sa = (xs, Suspended sa') ->
    get_many db n sb = (ys, Suspended sb') ->
    get_many (zip da db) n (sa, sb)
    = (zip_with pair xs ys, Suspended (sa', sb')).
Proof.
  induction n as [|n IH]; intros sa sa' sb sb' xs ys Ha Hb.
  - simpl in *. inversion Ha; inversion Hb; subst. reflexivity.
  - cbn [get_many zip get_next] in *.
    destruct (get_next da sa) as [a sa1 | | ea]; [ | discriminate | discriminate].
    destruct (get_next db sb) as [b sb1 | | eb]; [ | discriminate | discriminate].
    destruct (get_many da n sa1) as [xs1 ex] eqn:Hxa.
    destruct (get_many db n sb1) as [ys1 ey] eqn:Hxb.
    inversion Ha; inversion Hb; subst.
    rewrite (IH sa1 sa' sb1 sb' xs1 ys1 Hxa Hxb). reflexivity.
Qed.

(** The zip is over as soon as the left sequence is, if the right one got
    that far. *)
Lemma get_many_zip_left_exhausted :
  forall (n : nat) (sa : iter da) (sb : iter db) xs,
    get_many da n sa = (xs, Exhausted) ->
    (length xs <= length (fst (get_many db n sb)))%nat ->
    get_many (zip da db) n (sa, sb)
    = (zip_with pair xs (fst (get_many db n sb)), Exhausted).
Proof.
  induction n as [|n IH]; intros sa sb xs Ha Hlen; [discriminate | ].
  cbn [get_many zip get_next] in *.
  destruct (get_next da sa) as [a sa1 | | ea]; [ | | discriminate].
  - destruct (get_many da n sa1) as [xs1 ex] eqn:Hxa.
    inversion Ha; subst.
    destruct (get_next db sb) as [b sb1 | | eb];
      [ | simpl in Hlen; lia | simpl in Hlen; lia].
    destruct (get_many db n sb1) as [ys1 ey] eqn:Hxb.
    simpl in Hlen.
    rewrite (IH sa1 sb1 xs1 Hxa) by (rewrite Hxb; simpl; lia).
    rewrite Hxb. reflexivity.
  - inversion Ha; subst. reflexivity.
Qed.

(** And as soon as the right sequence is, if the left one got further. *)
Lemma get_many_zip_right_exhausted :
  forall (n : nat) (sa : iter da) (sb : iter db) ys,
    get_many db n sb = (ys, Exhausted) ->
    (length ys < length (fst (get_many da n sa)))%nat ->
    get_many (zip da db) n (sa, sb)
    = (zip_with pair (fst (get_many da n sa)) ys, Exhausted).
Proof.
  induction n as [|n IH]; intros sa sb ys Hb Hlen; [discriminate | ].
  cbn [get_many zip get_next] in *.
  destruct (get_next da sa) as [a sa1 | | ea];
    [ | simpl in Hlen; lia | simpl in Hlen; lia].
  destruct (get_many da n sa1) as [xs1 ex] eqn:Hxa.
  destruct (get_next db sb) as [b sb1 | | eb]; [ | | discriminate].
  - destruct (get_many db n sb1) as [ys1 ey] eqn:Hxb.
    inversion Hb; subst. simpl in Hlen.
    rewrite (IH sa1 sb1 ys1 Hxb) by (rewrite Hxa; simpl; lia).
    rewrite Hxa. reflexivity.
  - inversion Hb; subst. reflexivity.
Qed.
End Zip.

(** C6: the zip of an image sequence and a label sequence advances both in
    lockstep: its elements are the positional pairs of theirs and, while
    both are live, its iterator holds both iterators after the same number
    of steps. It is over as soon as either is over. When both end after
    [item_count] elements it yields exactly [item_count] pairs, and the pair
    at position [i] is the image at [i] with the label at [i]. *)
Theorem zip_pairs_by_position {A B} (imgs : Dataset A) (lbls : Dataset B)
    (n : nat) :
  fst (consume (zip imgs lbls) n)
    = zip_with pair (fst (consume imgs n)) (fst (consume lbls n))
  /\ (forall xs ys si sl,
        get_many imgs n (start imgs) = (xs, Suspended si) ->
        get_many lbls n (start lbls) = (ys, Suspended sl) ->
        get_many (zip imgs lbls) n (start (zip imgs lbls))
        = (zip_with pair xs ys, Suspended (si, sl)))
  /\ (forall xs,
        consume imgs n = (xs, Exhausted) ->
        (length xs <= length (fst (consume lbls n)))%nat ->
        snd (consume (zip imgs lbls) n) = Exhausted
        /\ length (fst (consume (zip imgs lbls) n)) = length xs)
  /\ (forall ys,
        consume lbls n = (ys, Exhausted) ->
        (length ys < length (fst (consume imgs n)))%nat ->
        snd (consume (zip imgs lbls) n) = Exhausted
        /\ length (fst (consume (zip imgs lbls) n)) = length ys)
  /\ (forall xs ys item_count,
        consume imgs n = (xs, Exhausted) ->
        consume lbls n = (ys, Exhausted) ->
        length xs = item_count -> length ys = item_count ->
        consume (zip imgs lbls) n = (zip_with pair xs ys, Exhausted)
        /\ length (zip_with pair xs ys) = item_count
        /\ (forall i x y, xs !! i = Some x -> ys !! i = Some y ->
              zip_with pair xs ys !! i = Some (x, y))).
Proof.
  assert (Hfst : forall {X} (d : Dataset X) k,
            fst (consume d k) = fst (get_many d k (start d))).
  { intros X d k. unfold consume. destruct (get_many d k (start d)). reflexivity. }
  split; [ | split; [ | split; [ | split]]].
  - rewrite !Hfst. apply get_many_zip_elements.
  - intros xs ys si sl Hi Hl. apply get_many_zip_suspended; assumption.
  - intros xs Hi Hlen. apply consume_exhausted in Hi. rewrite Hfst in Hlen.
    unfold consume. change (start (zip imgs lbls)) with (start imgs, start lbls).
    rewrite (get_many_zip_left_exhausted imgs lbls n _ _ xs Hi Hlen). simpl.
    split; [reflexivity | ]. rewrite length_zip_with. lia.
  - intros ys Hl Hlen. apply consume_exhausted in Hl. rewrite Hfst in Hlen.
    unfold consume. change (start (zip imgs lbls)) with (start imgs, start lbls).
    rewrite (get_many_zip_right_exhausted imgs lbls n _ _ ys Hl Hlen). simpl.
    split; [reflexivity | ]. rewrite length_zip_with. lia.
  - intros xs ys item_count Hi Hl Hx Hy.
    apply consume_exhausted in Hi. apply consume_exhausted in Hl.
    split; [ | split].
    + unfold consume.
      change (start (zip imgs lbls)) with (start imgs, start lbls).
      rewrite (get_many_zip_left_exhausted imgs lbls n _ _ xs Hi)
        by (rewrite Hl; simpl; lia).
      rewrite Hl. reflexivity.
    + rewrite length_zip_with. lia.
    + intros i x y Hxi Hyi. rewrite lookup_zip_with, Hxi, Hyi. reflexivity.
Qed.

Lemma zip_pairs_by_position_witness :
  consume (zip (labels {[ "a" := three_labels ]} "a")
               (labels {[ "b" := three_labels ]} "b")) 4
  = ([(7, 7); (1, 1); (4, 4)], Exhausted).
Proof.
  apply (proj2 (proj2 (proj2 (proj2 (zip_pairs_by_position
    (labels {[ "a" := three_labels ]} "a")
    (labels {[ "b" := three_labels ]} "b") 4))))
    [7; 1; 4] [7; 1; 4] 3%nat); reflexivity.
Defined.

(** ** The image pipeline *)

Lemma forget_end_of_file {S} (tail : list byte) :
  forget (@end_of_file S tail) = end_of_file tail.
Proof. destruct tail; reflexivity. Qed.

Lemma drop_records (rb : nat) (recs : list (list byte)) (tail : list byte) :
  Forall (fun r => length r = rb) recs ->
  forall k, (k <= length recs)%nat ->
    drop (rb * k) (concat recs ++ tail) = concat (drop k recs) ++ tail.
Proof.
  induction 1 as [|r recs Hr _ IH]; intros k Hk.
  - assert (k = 0%nat) as -> by (simpl in Hk; lia).
    rewrite Nat.mul_0_r. reflexivity.
  - destruct k as [|k]; [rewrite Nat.mul_0_r; reflexivity | ].
    simpl concat. rewrite <- app_assoc.
    replace (rb * S k)%nat with (length r + rb * k)%nat by lia.
    rewrite <- drop_drop, drop_app_length. apply IH. simpl in Hk. lia.
Qed.

Section Images.
Variable fs : gmap string (list byte).
Variable images_file : string.
Variables hdr tail : list byte.
Variable recs : list (list byte).

Local Abbreviation content := (hdr ++ concat recs ++ tail).

Hypothesis on_disk : fs !! images_file = Some content.
Hypothesis hdr_size : length hdr = 16%nat.
Hypothesis whole : Forall (fun r => length r = 784%nat) recs.

Lemma remaining_after_header :
  remaining (mkStream images_file content 16) = concat recs ++ tail.
Proof. unfold remaining, content. simpl. apply drop_app_length'. congruence. Qed.

Lemma decodable (rs : list (list byte)) :
  Forall (fun r => length r = 784%nat) rs ->
  Forall (fun r => decode_image r = Return (pixels r)) rs.
Proof.
  intros Hall. eapply Forall_impl; [exact Hall | ].
  intros r. apply decode_image_pixels.
Qed.

Lemma images_prefix (k : nat) :
  (0 < k <= length recs)%nat ->
  get_many (images fs images_file) k (start (images fs images_file))
  = (pixels <$> take k recs,
     Suspended (Some (mkStream images_file content (16 + 784 * k)))).
Proof.
  intros [Hpos Hk]. destruct k as [|k]; [lia | ].
  unfold images. change (28 * 28)%nat with 784%nat.
  apply (get_many_map decode_image pixels); [ | apply decodable, Forall_take, whole].
  etransitivity;
    [apply (reader_start fs images_file 784 16 content k on_disk) | ].
  apply (reader_prefix fs images_file 784 16 ltac:(lia) recs _ tail (S k) whole
           remaining_after_header Hk).
Qed.

Lemma images_consume_prefix (k : nat) :
  (k <= length recs)%nat ->
  consume (images fs images_file) k = (pixels <$> take k recs, Suspended ()).
Proof.
  intros Hk. destruct k as [|k]; [reflexivity | ].
  unfold consume. rewrite images_prefix by lia. reflexivity.
Qed.

Lemma images_all (n : nat) :
  (length tail < 784)%nat -> (length recs < n)%nat ->
  consume (images fs images_file) n = (pixels <$> recs, end_of_file tail).
Proof.
  intros Htail Hn. destruct n as [|n]; [lia | ].
  assert (Hrun : get_many (images fs images_file) (S n)
                   (start (images fs images_file))
                 = (pixels <$> recs, end_of_file tail)).
  { unfold images. change (28 * 28)%nat with 784%nat.
    apply (get_many_map decode_image pixels); [ | apply decodable, whole].
    etransitivity;
      [apply (reader_start fs images_file 784 16 content n on_disk) | ].
    apply (reader_all fs images_file 784 16 ltac:(lia) recs _ tail (S n) whole
             remaining_after_header Htail Hn). }
  unfold consume. rewrite Hrun. simpl. rewrite forget_end_of_file. reflexivity.
Qed.

Lemma images_resume (k n : nat) :
  (length tail < 784)%nat -> (k <= length recs)%nat ->
  (length recs - k < n)%nat ->
  get_many (images fs images_file) n
    (Some (mkStream images_file content (16 + 784 * k)))
  = (pixels <$> drop k recs, end_of_file tail).
Proof.
  intros Htail Hk Hn.
  unfold images. change (28 * 28)%nat with 784%nat.
  apply (get_many_map decode_image pixels); [ | apply decodable, Forall_drop, whole].
  apply (reader_all fs images_file 784 16 ltac:(lia) (drop k recs) _ tail n).
  - apply Forall_drop, whole.
  - change (mkStream images_file content (16 + 784 * k))
      with (advance (784 * k) (mkStream images_file content 16)).
    rewrite remaining_advance, remaining_after_header.
    apply drop_records; assumption.
  - exact Htail.
  - rewrite length_drop. exact Hn.
Qed.

Lemma record_count :
  (length tail < 784)%nat ->
  length recs = ((length content - 16) / 784)%nat.
Proof.
  intros Htail. apply (Nat.div_unique _ _ _ (length tail) Htail).
  unfold content.
  assert (Hpos : (0 < 784)%nat) by lia.
  rewrite !length_app, (concat_records_length 784 Hpos recs whole). lia.
Qed.
End Images.

(** C3, as stated, fails: a validated file whose header declares two images
    and that holds one record yields one element and ends; it neither
    yields two elements nor fails with [TruncatedReadError]. *)
Lemma declared_count_is_not_consulted :
  check_image_file_header {[ "train-images-idx3-ubyte" := one_of_two ]}
    "train-images-idx3-ubyte" = Return PyNone
  /\ ~ decode_images_contract {[ "train-images-idx3-ubyte" := one_of_two ]}
         "train-images-idx3-ubyte" 2.
Proof.
  split; [vm_compute; reflexivity | ].
  intros Hcontract. specialize (Hcontract 3%nat ltac:(lia)).
  vm_compute in Hcontract.
  destruct Hcontract as [[Hlen _] | Hfail]; discriminate.
Qed.

(** C3, amended: for every image file made of a 16-byte header, whole
    784-byte records and fewer than 784 bytes after them, the image
    sequence is lazy, finite and single-pass, and holds one element per
    whole record, (length - 16) / 784 of them, whatever count the header
    declares. Asking for more ends the sequence cleanly when nothing
    follows the last record and fails with [TruncatedReadError] otherwise;
    [k] requests read 784 bytes each and leave the cursor at 16 + 784 k; an
    iterator that has produced [k] elements has only the others left. *)
Theorem images_follow_the_file (fs : gmap string (list byte))
    (images_file : string) (hdr tail : list byte) (recs : list (list byte)) :
  fs !! images_file = Some (hdr ++ concat recs ++ tail) ->
  length hdr = 16%nat ->
  Forall (fun r => length r = 784%nat) recs ->
  (length tail < 784)%nat ->
  length recs = ((length (hdr ++ concat recs ++ tail) - 16) / 784)%nat
  /\ (forall n, (length recs < n)%nat ->
        consume (images fs images_file) n = (pixels <$> recs, end_of_file tail))
  /\ (forall k, (0 < k <= length recs)%nat ->
        get_many (images fs images_file) k (start (images fs images_file))
        = (pixels <$> take k recs,
           Suspended (Some (mkStream images_file (hdr ++ concat recs ++ tail)
                              (16 + 784 * k)))))
  /\ (forall k n, (k <= length recs)%nat -> (length recs - k < n)%nat ->
        get_many (images fs images_file) n
          (Some (mkStream images_file (hdr ++ concat recs ++ tail)
                   (16 + 784 * k)))
        = (pixels <$> drop k recs, end_of_file tail)).
Proof.
  intros Hfile Hhdr Hwhole Htail. split; [ | split; [ | split]].
  - apply record_count; assumption.
  - intros n Hn. apply (images_all fs images_file hdr tail recs); assumption.
  - intros k Hk. apply (images_prefix fs images_file hdr tail recs); assumption.
  - intros k n Hk Hn.
    apply (images_resume fs images_file hdr tail recs); assumption.
Qed.

Lemma images_follow_the_file_witness :
  consume (images {[ "train-images-idx3-ubyte" := one_of_two ]}
             "train-images-idx3-ubyte") 3
  = (pixels <$> [repeat xff 784], Exhausted).
Proof.
  assert (Hfile : ({[ "train-images-idx3-ubyte" := one_of_two ]}
                     : gmap string (list byte)) !! "train-images-idx3-ubyte"
                  = Some (image_header w2051 w2 w28 w28
                          ++ concat [repeat xff 784] ++ []))
    by (vm_compute; reflexivity).
  assert (Hwhole : Forall (fun r : list byte => length r = 784%nat)
                     [repeat xff 784])
    by (repeat constructor).
  apply (proj1 (proj2 (images_follow_the_file _ _ _ _ _ Hfile eq_refl Hwhole
                         ltac:(simpl; lia))) 3%nat).
  simpl. lia.
Defined.

(** C7: an image file cut in the middle of a record gives every complete
    record as a valid sample, 784 values between 0.0 and 1.0 each, with no
    error while only those are requested; [TruncatedReadError] is raised by
    the request for the first incomplete record and by no earlier one. *)
Theorem truncation_surfaces_at_the_short_record (fs : gmap string (list byte))
    (images_file : string) (hdr tail : list byte) (recs : list (list byte)) :
  fs !! images_file = Some (hdr ++ concat recs ++ tail) ->
  length hdr = 16%nat ->
  Forall (fun r => length r = 784%nat) recs ->
  (0 < length tail < 784)%nat ->
  (forall k, (k <= length recs)%nat ->
     consume (images fs images_file) k = (pixels <$> take k recs, Suspended ()))
  /\ consume (images fs images_file) (S (length recs))
     = (pixels <$> recs, Failed TruncatedReadError)
  /\ Forall (fun img =>
       length img = 784%nat
       /\ Forall (fun x => SFleb f32_zero x = true /\ SFleb x f32_one = true) img)
       (pixels <$> recs).
Proof.
  intros Hfile Hhdr Hwhole [Hpos Htail]. split; [ | split].
  - intros k Hk.
    apply (images_consume_prefix fs images_file hdr tail recs); assumption.
  - rewrite (images_all fs images_file hdr tail recs Hfile Hhdr Hwhole
               (S (length recs)) Htail) by lia.
    destruct tail; [simpl in Hpos; lia | reflexivity].
  - apply Forall_fmap. eapply Forall_impl; [exact Hwhole | ].
    intros r Hr. simpl. unfold pixels. rewrite length_fmap. split; [exact Hr | ].
    apply Forall_fmap, Forall_forall. intros b _. apply normalize_unit_interval.
Qed.

Lemma truncation_surfaces_at_the_short_record_witness :
  consume (images {[ "train-images-idx3-ubyte" := one_and_a_half ]}
             "train-images-idx3-ubyte") 1
  = (pixels <$> [repeat xff 784], Suspended ())
  /\ consume (images {[ "train-images-idx3-ubyte" := one_and_a_half ]}
                "train-images-idx3-ubyte") 2
     = (pixels <$> [repeat xff 784], Failed TruncatedReadError).
Proof.
  assert (Hfile : ({[ "train-images-idx3-ubyte" := one_and_a_half ]}
                     : gmap string (list byte)) !! "train-images-idx3-ubyte"
                  = Some (image_header w2051 w2 w28 w28
                          ++ concat [repeat xff 784] ++ repeat x80 392))
    by (vm_compute; reflexivity).
  assert (Hwhole : Forall (fun r : list byte => length r = 784%nat)
                     [repeat xff 784])
    by (repeat constructor).
  assert (Htail : (0 < length (repeat x80 392) < 784)%nat)
    by (rewrite repeat_length; lia).
  destruct (truncation_surfaces_at_the_short_record _ _ _ _ _ Hfile eq_refl
              Hwhole Htail) as [Hprefix [Hfail _]].
  split; [apply (Hprefix 1%nat); simpl; lia | exact Hfail].
Defined.

(** ** The autoencoder constructor *)

(** Two runs that took the same path ended the same way. *)
Ltac same_outcome :=
  repeat match goal with
         | H : (_, _) = (_, _) |- _ => inversion H; subst; clear H
         end;
  first [ reflexivity
        | discriminate
        | exfalso; congruence
        | match goal with
          | H1 : ?x = _, H2 : ?x = _ |- _ =>
              rewrite H1 in H2; inversion H2; reflexivity
          end ].

(** C9, as stated, fails: where the file under the images' name does not
    pass the image check, the call raises that check's [ValueError] at line
    93 and never reaches the undefined name of line 94. *)
Lemma autoencoder_dataset_other_error :
  fst (autoencoder_dataset "/data" "images" mislabelled)
    = Raise (ValueError (Invalid_magic_number 2049 "/data/images"))
  /\ fst (autoencoder_dataset "/data" "images" mislabelled)
     <> Raise (NameError "labels_file").
Proof. split; vm_compute; [reflexivity | discriminate]. Qed.

(** C9, amended: no call to [autoencoder_dataset] succeeds. When the
    download and the image-header check succeed it raises [NameError] for
    [labels_file] before any dataset is built; otherwise the error of the
    download or of the image check is what the caller sees. *)
Theorem autoencoder_dataset_never_succeeds (directory images_file : string)
    (w : world) :
  (forall d w', autoencoder_dataset directory images_file w <> (Return d, w'))
  /\ (forall path w1,
        download directory images_file w = (Return path, w1) ->
        check_image_file_header (files w1) path = Return PyNone ->
        autoencoder_dataset directory images_file w
        = (Raise (NameError "labels_file"), w1))
  /\ (forall e w1,
        download directory images_file w = (Raise e, w1) ->
        autoencoder_dataset directory images_file w = (Raise e, w1))
  /\ (forall path w1 e,
        download directory images_file w = (Return path, w1) ->
        check_image_file_header (files w1) path = Raise e ->
        autoencoder_dataset directory images_file w = (Raise e, w1)).
Proof.
  unfold autoencoder_dataset, mbind, io_bind, bind, on_files.
  destruct (download directory images_file w) as [[path | e] w1].
  - destruct (check_image_file_header (files w1) path) as [v | e] eqn:Hcheck;
      simpl; repeat split; intros; same_outcome.
  - repeat split; intros; same_outcome.
Qed.

Lemma autoencoder_dataset_never_succeeds_witness :
  autoencoder_dataset "/data" "images" one_image_disk
  = (Raise (NameError "labels_file"), one_image_disk).
Proof.
  apply (proj1 (proj2 (autoencoder_dataset_never_succeeds "/data" "images"
                         one_image_disk)) "/data/images" one_image_disk);
    vm_compute; reflexivity.
Defined.

(** ** The whole pipeline on one sample *)

Example one_sample :
  match fst (dataset "/data" "images" "labels" scenario) with
  | Return d => consume d 2 = ([(repeat f32_one 784, 7)], Exhausted)
  | Raise _ => False
  end.
Proof. vm_compute. reflexivity. Qed.

(** Files of different lengths pair up to the shorter one. *)
Example shorter_side_wins :
  consume (zip (labels {[ "a" := three_labels ]} "a")
               (labels {[ "b" := label_header w2049 w3 ++ [x07] ]} "b")) 4
  = ([(7, 7)], Exhausted).
Proof. vm_compute. reflexivity. Qed.

(** ** Further properties of the reader and of the header checkers *)

Lemma byte_val_inj (b b' : byte) : byte_val b = byte_val b' -> b = b'.
Proof.
  unfold byte_val. intros Heq. apply N2Z.inj in Heq.
  pose proof (Byte.of_to_N b) as Hb. rewrite Heq, Byte.of_to_N in Hb.
  congruence.
Qed.

Lemma uint32_be_inj (w w' : word) : uint32_be w = uint32_be w' -> w = w'.
Proof.
  destruct w as [[[b0 b1] b2] b3], w' as [[[c0 c1] c2] c3]. unfold uint32_be.
  pose proof (byte_val_range b0). pose proof (byte_val_range b1).
  pose proof (byte_val_range b2). pose proof (byte_val_range b3).
  pose proof (byte_val_range c0). pose proof (byte_val_range c1).
  pose proof (byte_val_range c2). pose proof (byte_val_range c3).
  intros Heq.
  assert (byte_val b0 = byte_val c0) by lia.
  assert (byte_val b1 = byte_val c1) by lia.
  assert (byte_val b2 = byte_val c2) by lia.
  assert (byte_val b3 = byte_val c3) by lia.
  repeat f_equal; apply byte_val_inj; assumption.
Qed.

(** X1: [read32] always moves past the next four bytes, or past what is left of
    the file when that is less, also when it fails; a failed [read32]
    leaves the stream at the end of the file, where every further [read32]
    raises [IndexError] and moves nothing. *)
Theorem read32_consumes (f : bytestream) :
  remaining (snd (read32 f)) = drop 4 (remaining f)
  /\ ((length (remaining f) < 4)%nat ->
      fst (read32 f) = Raise (short_read_error (length (remaining f)))
      /\ remaining (snd (read32 f)) = []
      /\ read32 (snd (read32 f)) = (Raise IndexError, snd (read32 f))).
Proof.
  assert (Hshort : (length (remaining f) < 4)%nat ->
            fst (read32 f) = Raise (short_read_error (length (remaining f)))
            /\ remaining (snd (read32 f)) = drop 4 (remaining f)).
  { intros Hlen. destruct (remaining f) as [|b bs] eqn:Hrem.
    - rewrite (read32_empty f Hrem). simpl. rewrite Hrem. auto.
    - assert (Hpart : (0 < length (remaining f) < 4)%nat)
        by (rewrite Hrem; simpl in *; lia).
      rewrite (read32_partial f Hpart). cbn [fst snd].
      rewrite remaining_advance, Hrem.
      rewrite !drop_ge by (simpl in *; lia). auto. }
  split.
  - destruct (remaining f) as [|b0 [|b1 [|b2 [|b3 rest]]]] eqn:Hrem;
      try (apply Hshort; simpl; lia).
    rewrite (read32_word f (b0, b1, b2, b3) rest Hrem). cbn [fst snd].
    rewrite remaining_advance, Hrem. reflexivity.
  - intros Hlen. destruct (Hshort Hlen) as [Herr Hdrop].
    assert (Hnil : remaining (snd (read32 f)) = [])
      by (rewrite Hdrop; apply drop_ge; lia).
    repeat split; [exact Herr | exact Hnil | apply read32_empty, Hnil].
Qed.

Lemma read32_consumes_witness :
  fst (read32 (mkStream "t10k-labels-idx1-ubyte" [x00; x00; x08; x01; x00; x00] 4))
  = Raise (ValueError Buffer_size_not_multiple_of_element_size).
Proof.
  apply (proj2 (read32_consumes
    (mkStream "t10k-labels-idx1-ubyte" [x00; x00; x08; x01; x00; x00] 4))).
  simpl. lia.
Defined.

(** X2: [read32] loses nothing of the four bytes it reads: two reads that
    return the same number have read the same four bytes. *)
Theorem read32_injective (f f' : bytestream) (w w' : word)
    (rest rest' : list byte) :
  remaining f = word_bytes w ++ rest ->
  remaining f' = word_bytes w' ++ rest' ->
  fst (read32 f) = fst (read32 f') ->
  w = w'.
Proof.
  intros Hrem Hrem' Heq.
  rewrite (read32_word f w rest Hrem), (read32_word f' w' rest' Hrem') in Heq.
  simpl in Heq. apply uint32_be_inj. congruence.
Qed.

Lemma read32_injective_witness : w2051 = w2051.
Proof.
  apply (read32_injective
    (mkStream "a" (image_header w2051 w2 w28 w28) 0)
    (mkStream "b" (label_header w2051 w3) 0)
    w2051 w2051 (word_bytes w2 ++ word_bytes w28 ++ word_bytes w28)
    (word_bytes w3)); reflexivity.
Defined.

Lemma check_image_stream_short (fname : string) (content : list byte) :
  (length content < 16)%nat ->
  check_image_stream (mkStream fname content 0)
  = (Raise (short_read_error (length content mod 4)),
     mkStream fname content (length content)).
Proof.
  intros Hlen.
  do 16 (destruct content as [|? content]; [reflexivity | ]).
  simpl in Hlen. lia.
Qed.

Lemma check_labels_stream_short (fname : string) (content : list byte) :
  (length content < 8)%nat ->
  check_labels_stream (mkStream fname content 0)
  = (Raise (short_read_error (length content mod 4)),
     mkStream fname content (length content)).
Proof.
  intros Hlen.
  do 8 (destruct content as [|? content]; [reflexivity | ]).
  simpl in Hlen. lia.
Qed.

(** X3: a file too short to hold its header is refused with numpy's error for
    the short read, [IndexError] when its length is a multiple of four and
    [ValueError] otherwise, whatever its first bytes are: all fields are
    read before the magic number is looked at, so a short file with a wrong
    magic number is not reported as such. *)
Theorem truncated_header_errors (fs : gmap string (list byte))
    (filename : string) (content : list byte) :
  fs !! filename = Some content ->
  ((length content < 16)%nat ->
   check_image_file_header fs filename
   = Raise (short_read_error (length content mod 4)))
  /\ ((length content < 8)%nat ->
      check_labels_file_header fs filename
      = Raise (short_read_error (length content mod 4))).
Proof.
  intros Hfile. split; intros Hlen.
  - unfold check_image_file_header, with_open, gfile_Open.
    rewrite Hfile, (check_image_stream_short _ _ Hlen). reflexivity.
  - unfold check_labels_file_header, with_open, gfile_Open.
    rewrite Hfile, (check_labels_stream_short _ _ Hlen). reflexivity.
Qed.

Lemma truncated_header_errors_witness :
  check_image_file_header {[ "t10k-images-idx3-ubyte" := three_labels ]}
    "t10k-images-idx3-ubyte"
  = Raise (ValueError Buffer_size_not_multiple_of_element_size).
Proof.
  assert (Hfile : ({[ "t10k-images-idx3-ubyte" := three_labels ]}
                     : gmap string (list byte)) !! "t10k-images-idx3-ubyte"
                  = Some three_labels)
    by (vm_compute; reflexivity).
  apply (proj1 (truncated_header_errors _ _ _ Hfile)).
  simpl. lia.
Defined.

Lemma split_image_header (content : list byte) :
  (16 <= length content)%nat ->
  exists magic count rows cols rest,
    content = image_header magic count rows cols ++ rest.
Proof.
  intros Hlen.
  do 16 (destruct content as [|? content]; [simpl in Hlen; lia | ]).
  eexists (_, _, _, _), (_, _, _, _), (_, _, _, _), (_, _, _, _), content.
  reflexivity.
Qed.

Lemma split_label_header (content : list byte) :
  (8 <= length content)%nat ->
  exists magic count rest, content = label_header magic count ++ rest.
Proof.
  intros Hlen.
  do 8 (destruct content as [|? content]; [simpl in Hlen; lia | ]).
  eexists (_, _, _, _), (_, _, _, _), content. reflexivity.
Qed.

Lemma image_verdict_accepts (fname : string) (magic rows cols : word) :
  image_verdict fname (uint32_be magic) (uint32_be rows) (uint32_be cols)
    = Return PyNone ->
  magic = w2051 /\ rows = w28 /\ cols = w28.
Proof.
  unfold image_verdict.
  destruct (Z.eqb_spec (uint32_be magic) 2051) as [Hm | Hm]; [ | discriminate].
  destruct (Z.eqb_spec (uint32_be rows) 28) as [Hr | Hr]; [ | discriminate].
  destruct (Z.eqb_spec (uint32_be cols) 28) as [Hc | Hc]; [ | discriminate].
  intros _. repeat split; apply uint32_be_inj; assumption.
Qed.

Lemma labels_verdict_accepts (fname : string) (magic : word) :
  labels_verdict fname (uint32_be magic) = Return PyNone -> magic = w2049.
Proof.
  unfold labels_verdict.
  destruct (Z.eqb_spec (uint32_be magic) 2049) as [Hm | Hm]; [ | discriminate].
  intros _. apply uint32_be_inj. assumption.
Qed.

Lemma image_check_shape (fs : gmap string (list byte)) (filename : string) :
  check_image_file_header fs filename = Return PyNone ->
  exists count rest,
    fs !! filename = Some (image_header w2051 count w28 w28 ++ rest).
Proof.
  unfold check_image_file_header, with_open, gfile_Open.
  destruct (fs !! filename) as [content | ] eqn:Hfile; [ | discriminate].
  destruct (Nat.lt_ge_cases (length content) 16) as [Hshort | Hlong].
  - rewrite (check_image_stream_short _ _ Hshort). discriminate.
  - destruct (split_image_header content Hlong)
      as (magic & count & rows & cols & rest & ->).
    rewrite check_image_stream_header. simpl. intros Hok.
    apply image_verdict_accepts in Hok as (-> & -> & ->).
    exists count, rest. reflexivity.
Qed.

Lemma labels_check_shape (fs : gmap string (list byte)) (filename : string) :
  check_labels_file_header fs filename = Return PyNone ->
  exists count rest, fs !! filename = Some (label_header w2049 count ++ rest).
Proof.
  unfold check_labels_file_header, with_open, gfile_Open.
  destruct (fs !! filename) as [content | ] eqn:Hfile; [ | discriminate].
  destruct (Nat.lt_ge_cases (length content) 8) as [Hshort | Hlong].
  - rewrite (check_labels_stream_short _ _ Hshort). discriminate.
  - destruct (split_label_header content Hlong) as (magic & count & rest & ->).
    rewrite check_labels_stream_header. simpl. intros Hok.
    apply labels_verdict_accepts in Hok as ->.
    exists count, rest. reflexivity.
Qed.

(** X4: the image checker accepts exactly the files on disk that begin with
    the bytes 00 00 08 03, any four bytes, 00 00 00 1c and 00 00 00 1c:
    every accepted file is at least 16 bytes long and spells magic 2051 and
    28x28, and there is no other way to pass. *)
Theorem check_image_file_header_accepts (fs : gmap string (list byte))
    (filename : string) :
  check_image_file_header fs filename = Return PyNone
  <-> exists count rest,
        fs !! filename = Some (image_header w2051 count w28 w28 ++ rest).
Proof.
  split.
  - apply image_check_shape.
  - intros (count & rest & Hfile).
    rewrite (check_image_file_header_verdict _ _ _ _ _ _ _ Hfile). reflexivity.
Qed.

(** X5: the label checker accepts exactly the files on disk that begin with
    the bytes 00 00 08 01 followed by any four bytes; on a file of eight
    bytes or more with another magic number it raises the invalid-magic
    [ValueError] that reports the number found. *)
Theorem check_labels_file_header_accepts (fs : gmap string (list byte))
    (filename : string) :
  (check_labels_file_header fs filename = Return PyNone
   <-> exists count rest,
         fs !! filename = Some (label_header w2049 count ++ rest))
  /\ (forall magic count rest,
        fs !! filename = Some (label_header magic count ++ rest) ->
        magic <> w2049 ->
        check_labels_file_header fs filename
        = Raise (ValueError (Invalid_magic_number (uint32_be magic) filename))).
Proof.
  split; [split | ].
  - apply labels_check_shape.
  - intros (count & rest & Hfile).
    rewrite (check_labels_file_header_verdict _ _ _ _ _ Hfile). reflexivity.
  - intros magic count rest Hfile Hmagic.
    rewrite (check_labels_file_header_verdict _ _ _ _ _ Hfile).
    unfold labels_verdict.
    destruct (Z.eqb_spec (uint32_be magic) 2049) as [Hm | Hm]; [ | reflexivity].
    exfalso. apply Hmagic, uint32_be_inj. exact Hm.
Qed.

Lemma check_labels_file_header_accepts_witness :
  check_labels_file_header {[ "train-labels-idx1-ubyte" := one_of_two ]}
    "train-labels-idx1-ubyte"
  = Raise (ValueError (Invalid_magic_number 2051 "train-labels-idx1-ubyte")).
Proof.
  apply (proj2 (check_labels_file_header_accepts
    {[ "train-labels-idx1-ubyte" := one_of_two ]} "train-labels-idx1-ubyte")
    w2051 w2 (word_bytes w28 ++ word_bytes w28 ++ repeat xff 784)).
  - vm_compute. reflexivity.
  - discriminate.
Defined.

Lemma image_check_returns_None (fs : gmap string (list byte))
    (filename : string) (v : value) :
  check_image_file_header fs filename = Return v -> v = PyNone.
Proof.
  unfold check_image_file_header, with_open, gfile_Open.
  destruct (fs !! filename) as [content | ]; [ | discriminate].
  destruct (Nat.lt_ge_cases (length content) 16) as [Hshort | Hlong].
  - rewrite (check_image_stream_short _ _ Hshort). discriminate.
  - destruct (split_image_header content Hlong)
      as (magic & count & rows & cols & rest & ->).
    rewrite check_image_stream_header. unfold image_verdict. simpl.
    destruct (negb _); [discriminate | ].
    destruct (_ || _); [discriminate | ].
    intros Heq. inversion Heq. reflexivity.
Qed.

Lemma labels_check_returns_None (fs : gmap string (list byte))
    (filename : string) (v : value) :
  check_labels_file_header fs filename = Return v -> v = PyNone.
Proof.
  unfold check_labels_file_header, with_open, gfile_Open.
  destruct (fs !! filename) as [content | ]; [ | discriminate].
  destruct (Nat.lt_ge_cases (length content) 8) as [Hshort | Hlong].
  - rewrite (check_labels_stream_short _ _ Hshort). discriminate.
  - destruct (split_label_header content Hlong) as (magic & count & rest & ->).
    rewrite check_labels_stream_header. unfold labels_verdict. simpl.
    destruct (negb _); [discriminate | ].
    intros Heq. inversion Heq. reflexivity.
Qed.

(** X6: no file passes both checks: a file the image checker accepts makes the
    label checker raise the invalid-magic [ValueError] that reports 2051,
    and a file the label checker accepts makes the image checker raise. *)
Theorem no_file_passes_both_checks (fs : gmap string (list byte))
    (filename : string) :
  (check_image_file_header fs filename = Return PyNone ->
   check_labels_file_header fs filename
   = Raise (ValueError (Invalid_magic_number 2051 filename)))
  /\ (check_labels_file_header fs filename = Return PyNone ->
      exists e, check_image_file_header fs filename = Raise e).
Proof.
  split.
  - intros Himg. apply image_check_shape in Himg as (count & rest & Hfile).
    apply (check_labels_file_header_verdict fs filename w2051 count
             (word_bytes w28 ++ word_bytes w28 ++ rest)).
    rewrite Hfile. unfold image_header, label_header.
    rewrite <- !app_assoc. reflexivity.
  - intros Hlbl.
    destruct (check_image_file_header fs filename) as [v | e] eqn:Himg;
      [ | eauto].
    exfalso. pose proof (image_check_returns_None _ _ _ Himg) as ->.
    apply image_check_shape in Himg as (count & rest & Hi).
    apply labels_check_shape in Hlbl as (count' & rest' & Hl).
    rewrite Hi in Hl. discriminate.
Qed.

Lemma no_file_passes_both_checks_witness :
  check_labels_file_header {[ "train-images-idx3-ubyte" := one_of_two ]}
    "train-images-idx3-ubyte"
  = Raise (ValueError (Invalid_magic_number 2051 "train-images-idx3-ubyte")).
Proof.
  apply (proj1 (no_file_passes_both_checks
    {[ "train-images-idx3-ubyte" := one_of_two ]} "train-images-idx3-ubyte")).
  vm_compute. reflexivity.
Defined.

(** ** Download *)

Lemma download_cases (directory filename : string) (w : world) :
  download directory filename w
  = if bool_decide (is_Some (files w !! path_join directory filename))
    then (Return (path_join directory filename), w)
    else match web w !! mnist_url filename with
         | Some payload =>
             (Return (path_join directory filename),
              mkWorld (<[path_join directory filename := payload]> (files w))
                      (web w))
         | None => (Raise (URLError (mnist_url filename)), w)
         end.
Proof.
  unfold download, mbind, io_bind, bind, gfile_Exists, fetch, mnist_url.
  destruct (bool_decide (is_Some (files w !! path_join directory filename)));
    [reflexivity | ].
  destruct (web w !! _); reflexivity.
Qed.

(** What a call of [download] can change, however it ends: the web is as
    it was, no file that was on disk is lost or rewritten, and no path but
    the target's holds anything new. *)
Lemma download_frame (directory filename : string) (w w' : world)
    (r : result string) :
  download directory filename w = (r, w') ->
  web w' = web w
  /\ (forall q c, files w !! q = Some c -> files w' !! q = Some c)
  /\ (forall q, q <> path_join directory filename ->
        files w' !! q = files w !! q).
Proof.
  rewrite download_cases. case_bool_decide as Hcached.
  - intros Heq. inversion Heq; subst. auto.
  - destruct (web w !! mnist_url filename) as [payload | ];
      intros Heq; inversion Heq; subst; simpl; [ | auto].
    split; [reflexivity | split].
    + intros q c Hq. rewrite lookup_insert_ne; [exact Hq | ].
      intros <-. apply Hcached. eauto.
    + intros q Hq. apply lookup_insert_ne. congruence.
Qed.




(** ** The label pipeline and the paired dataset *)

Lemma concat_singletons (body : list byte) :
  concat ((fun b => [b]) <$> body) = body.
Proof.
  induction body as [|b body IH]; [reflexivity | ].
  rewrite fmap_cons. simpl. f_equal. exact IH.
Qed.

Lemma decode_label_singletons (body : list byte) :
  Forall (fun r => decode_label r
                   = Return (default 0 (byte_val <$> head r)))
    ((fun b => [b]) <$> body).
Proof. apply Forall_fmap, Forall_forall. intros b _. reflexivity. Qed.

Lemma label_values_singletons (body : list byte) :
  (fun r => default 0 (byte_val <$> head r)) <$> ((fun b => [b]) <$> body)
  = label_values body.
Proof.
  unfold label_values. rewrite <- list_fmap_compose.
  apply list_fmap_ext. intros i b _. reflexivity.
Qed.


Section Labels.
Variable fs : gmap string (list byte).
Variable labels_file : string.
Variables hdr body : list byte.

Hypothesis on_disk : fs !! labels_file = Some (hdr ++ body).
Hypothesis hdr_size : length hdr = 8%nat.

Lemma remaining_after_label_header :
  remaining (mkStream labels_file (hdr ++ body) 8)
  = concat ((fun b => [b]) <$> body) ++ [].
Proof.
  unfold remaining. simpl. rewrite concat_singletons, app_nil_r.
  apply drop_app_length'. congruence.
Qed.

Lemma singletons_whole :
  Forall (fun r : list byte => length r = 1%nat) ((fun b => [b]) <$> body).
Proof. apply Forall_fmap, Forall_forall. intros b _. reflexivity. Qed.

Lemma labels_run (n : nat) :
  (length body < n)%nat ->
  get_many (labels fs labels_file) n (start (labels fs labels_file))
  = (label_values body, Exhausted).
Proof.
  intros Hn. destruct n as [|n]; [lia | ].
  rewrite <- label_values_singletons. unfold labels.
  apply (get_many_map decode_label
           (fun r => default 0 (byte_val <$> head r)));
    [ | apply decode_label_singletons].
  etransitivity;
    [apply (reader_start fs labels_file 1 8 (hdr ++ body) n on_disk) | ].
  apply (reader_all fs labels_file 1 8 ltac:(lia) _ _ [] (S n) singletons_whole
           remaining_after_label_header); [simpl; lia | ].
  rewrite length_fmap. exact Hn.
Qed.

Lemma labels_run_prefix (k : nat) :
  (0 < k <= length body)%nat ->
  get_many (labels fs labels_file) k (start (labels fs labels_file))
  = (label_values (take k body),
     Suspended (Some (mkStream labels_file (hdr ++ body) (8 + k)))).
Proof.
  intros [Hpos Hk]. destruct k as [|k]; [lia | ].
  rewrite <- label_values_singletons, fmap_take. unfold labels.
  apply (get_many_map decode_label
           (fun r => default 0 (byte_val <$> head r)));
    [ | apply Forall_take, decode_label_singletons].
  etransitivity;
    [apply (reader_start fs labels_file 1 8 (hdr ++ body) k on_disk) | ].
  rewrite (reader_prefix fs labels_file 1 8 ltac:(lia) _ _ [] (S k)
             singletons_whole remaining_after_label_header)
    by (rewrite length_fmap; exact Hk).
  unfold advance. simpl. rewrite Nat.add_0_r. reflexivity.
Qed.
End Labels.

(** X9: every byte after the eight header bytes of a label file is one label,
    in file order, with a value from 0 to 255: the label sequence has
    (length - 8) elements whatever count the header declares, [k] requests
    give the first [k] labels, and it always ends cleanly, a record of one
    byte being never short. *)
Theorem labels_follow_the_file (fs : gmap string (list byte))
    (labels_file : string) (hdr body : list byte) :
  fs !! labels_file = Some (hdr ++ body) ->
  length hdr = 8%nat ->
  (forall n, (length body < n)%nat ->
     consume (labels fs labels_file) n = (label_values body, Exhausted))
  /\ (forall k, (k <= length body)%nat ->
        consume (labels fs labels_file) k
        = (label_values (take k body), Suspended ()))
  /\ Forall (fun v => 0 <= v <= 255) (label_values body)
  /\ length (label_values body) = (length (hdr ++ body) - 8)%nat.
Proof.
  intros Hfile Hhdr. split; [ | split; [ | split]].
  - intros n Hn. unfold consume.
    rewrite (labels_run fs labels_file hdr body Hfile Hhdr n Hn). reflexivity.
  - intros k Hk. destruct k as [|k]; [reflexivity | ]. unfold consume.
    rewrite (labels_run_prefix fs labels_file hdr body Hfile Hhdr (S k))
      by lia.
    reflexivity.
  - apply Forall_fmap, Forall_forall. intros b _.
    pose proof (byte_val_range b). simpl. lia.
  - unfold label_values. rewrite length_fmap, length_app. lia.
Qed.

Lemma labels_follow_the_file_witness :
  consume (labels {[ "train-labels-idx1-ubyte" := three_labels ]}
             "train-labels-idx1-ubyte") 4
  = ([7; 1; 4], Exhausted).
Proof.
  assert (Hfile : ({[ "train-labels-idx1-ubyte" := three_labels ]}
                     : gmap string (list byte)) !! "train-labels-idx1-ubyte"
                  = Some (label_header w2049 w3 ++ [x07; x01; x04]))
    by (vm_compute; reflexivity).
  apply (proj1 (labels_follow_the_file _ _ _ _ Hfile eq_refl) 4%nat).
  simpl. lia.
Defined.



Lemma dataset_steps (directory images_file labels_file : string) (w : world) :
  dataset directory images_file labels_file w
  = match download directory images_file w with
    | (Raise e, w1) => (Raise e, w1)
    | (Return ipath, w1) =>
        match download directory labels_file w1 with
        | (Raise e, w2) => (Raise e, w2)
        | (Return lpath, w2) =>
            match check_image_file_header (files w2) ipath with
            | Raise e => (Raise e, w2)
            | Return _ =>
                match check_labels_file_header (files w2) lpath with
                | Raise e => (Raise e, w2)
                | Return _ =>
                    (Return (zip (images (files w2) ipath)
                                 (labels (files w2) lpath)), w2)
                end
            end
        end
    end.
Proof.
  unfold dataset, mbind, io_bind, bind, on_files, get_files.
  destruct (download directory images_file w) as [[ipath | e] w1];
    [ | reflexivity].
  destruct (download directory labels_file w1) as [[lpath | e] w2];
    [ | reflexivity].
  destruct (check_image_file_header (files w2) ipath); [ | reflexivity].
  destruct (check_labels_file_header (files w2) lpath); reflexivity.
Qed.

Lemma download_returns_join (directory filename path : string) (w w' : world) :
  download directory filename w = (Return path, w') ->
  path = path_join directory filename.
Proof.
  rewrite download_cases. case_bool_decide.
  - intros Heq. inversion Heq. reflexivity.
  - destruct (web w !! mnist_url filename); intros Heq; inversion Heq.
    reflexivity.
Qed.

(** X10: a dataset is only ever built over validated files: when [dataset]
    returns, the image file is on disk with magic 2051 and 28x28, the label
    file is on disk with magic 2049, they are two different files, and the
    result is the zip of the two pipelines over them. In particular
    [dataset] never succeeds when both names lead to the same file. *)
Theorem dataset_only_over_valid_files (directory images_file labels_file : string)
    (w w' : world) (ds : Dataset sample) :
  dataset directory images_file labels_file w = (Return ds, w') ->
  (exists count rest,
     files w' !! path_join directory images_file
     = Some (image_header w2051 count w28 w28 ++ rest))
  /\ (exists count rest,
        files w' !! path_join directory labels_file
        = Some (label_header w2049 count ++ rest))
  /\ path_join directory images_file <> path_join directory labels_file
  /\ ds = zip (images (files w') (path_join directory images_file))
              (labels (files w') (path_join directory labels_file)).
Proof.
  rewrite dataset_steps.
  destruct (download directory images_file w) as [[ipath | e] w1] eqn:Hdi;
    [ | discriminate].
  destruct (download directory labels_file w1) as [[lpath | e] w2] eqn:Hdl;
    [ | discriminate].
  destruct (check_image_file_header (files w2) ipath) as [vi | e] eqn:Hci;
    [ | discriminate].
  destruct (check_labels_file_header (files w2) lpath) as [vl | e] eqn:Hcl;
    [ | discriminate].
  intros Heq. inversion Heq; subst.
  apply download_returns_join in Hdi as ->.
  apply download_returns_join in Hdl as ->.
  pose proof (image_check_returns_None _ _ _ Hci) as ->.
  pose proof (labels_check_returns_None _ _ _ Hcl) as ->.
  pose proof (image_check_shape _ _ Hci) as (ic & irest & Hi).
  pose proof (labels_check_shape _ _ Hcl) as (lc & lrest & Hl).
  split; [eauto | split; [eauto | split; [ | reflexivity]]].
  intros Hsame. rewrite Hsame, Hl in Hi. discriminate.
Qed.

Lemma dataset_only_over_valid_files_witness :
  exists count rest,
    files scenario !! path_join "/data" "labels"
    = Some (label_header w2049 count ++ rest).
Proof.
  apply (dataset_only_over_valid_files "/data" "images" "labels" scenario
           scenario
           (zip (images (files scenario) "/data/images")
                (labels (files scenario) "/data/labels"))).
  reflexivity.
Defined.

Lemma dataset_frame (directory images_file labels_file : string) (w : world) :
  let w' := snd (dataset directory images_file labels_file w) in
  web w' = web w
  /\ (forall q c, files w !! q = Some c -> files w' !! q = Some c)
  /\ (forall q, q <> path_join directory images_file ->
        q <> path_join directory labels_file ->
        files w' !! q = files w !! q).
Proof.
  rewrite dataset_steps.
  destruct (download directory images_file w) as [ri w1] eqn:Hdi.
  destruct (download_frame _ _ _ _ _ Hdi) as (Hweb1 & Hkeep1 & Hother1).
  destruct ri as [ipath | e]; [ | simpl; auto].
  destruct (download directory labels_file w1) as [rl w2] eqn:Hdl.
  destruct (download_frame _ _ _ _ _ Hdl) as (Hweb2 & Hkeep2 & Hother2).
  assert (Hframe : web w2 = web w
            /\ (forall q c, files w !! q = Some c -> files w2 !! q = Some c)
            /\ (forall q, q <> path_join directory images_file ->
                  q <> path_join directory labels_file ->
                  files w2 !! q = files w !! q)).
  { split; [congruence | split].
    - intros q c Hq. apply Hkeep2, Hkeep1, Hq.
    - intros q Hqi Hql. rewrite Hother2, Hother1 by assumption. reflexivity. }
  destruct rl as [lpath | e]; [ | exact Hframe].
  destruct (check_image_file_header (files w2) ipath); [ | exact Hframe].
  destruct (check_labels_file_header (files w2) lpath); exact Hframe.
Qed.





(** X13: a second call finds the cache: after [dataset] has returned, the same
    call returns the same dataset again and changes nothing, whether or not
    the web still serves the files. *)
Theorem dataset_second_call_is_cached (directory images_file labels_file : string)
    (w w' : world) (ds : Dataset sample) (web' : gmap string (list byte)) :
  dataset directory images_file labels_file w = (Return ds, w') ->
  dataset directory images_file labels_file (mkWorld (files w') web')
  = (Return ds, mkWorld (files w') web').
Proof.
  intros Hrun.
  pose proof Hrun as Hsteps. rewrite dataset_steps in Hsteps.
  destruct (download directory images_file w) as [[ipath | e] w1] eqn:Hdi;
    [ | discriminate].
  destruct (download directory labels_file w1) as [[lpath | e] w2] eqn:Hdl;
    [ | discriminate].
  destruct (check_image_file_header (files w2) ipath) as [vi | e] eqn:Hci;
    [ | discriminate].
  destruct (check_labels_file_header (files w2) lpath) as [vl | e] eqn:Hcl;
    [ | discriminate].
  inversion Hsteps; subst.
  apply download_returns_join in Hdi as ->.
  apply download_returns_join in Hdl as ->.
  pose proof (image_check_returns_None _ _ _ Hci) as ->.
  pose proof (labels_check_returns_None _ _ _ Hcl) as ->.
  pose proof (image_check_shape _ _ Hci) as (ic & irest & Hi).
  pose proof (labels_check_shape _ _ Hcl) as (lc & lrest & Hl).
  rewrite dataset_steps.
  rewrite download_cases, bool_decide_eq_true_2 by (simpl; rewrite Hi; eauto).
  cbv beta iota.
  rewrite download_cases, bool_decide_eq_true_2 by (simpl; rewrite Hl; eauto).
  cbv beta iota. simpl files. rewrite Hci, Hcl. reflexivity.
Qed.

Lemma dataset_second_call_is_cached_witness :
  dataset "/data" "images" "labels" (mkWorld (files scenario) ∅)
  = (Return (zip (images (files scenario) "/data/images")
                 (labels (files scenario) "/data/labels")),
     mkWorld (files scenario) ∅).
Proof.
  apply (dataset_second_call_is_cached "/data" "images" "labels" scenario
           scenario). reflexivity.
Defined.

(** ** What the pipelines can raise *)





(** ** Order of the decoded pixels *)

Lemma all_bytes_complete (b : byte) : b ∈ all_bytes.
Proof.
  unfold all_bytes. apply list_elem_of_omap. exists (Byte.to_nat b). split.
  - apply elem_of_seq. pose proof (Byte.to_nat_bounded b). lia.
  - rewrite <- Byte.of_nat_via_N. apply Byte.of_to_nat.
Qed.

Lemma normalize_increasing : normalize_increasing_on all_bytes = true.
Proof. vm_compute. reflexivity. Qed.

Lemma normalize_not_below_itself (b : byte) :
  SFltb (normalize b) (normalize b) = false.
Proof. destruct b; vm_compute; reflexivity. Qed.

Lemma normalize_increasing_on_sound (bs : list byte) (b1 b2 : byte) :
  normalize_increasing_on bs = true ->
  In b1 bs -> In b2 bs ->
  byte_val b1 < byte_val b2 -> SFltb (normalize b1) (normalize b2) = true.
Proof.
  unfold normalize_increasing_on. intros Hall H1 H2 Hlt.
  cbv zeta in Hall. rewrite forallb_forall in Hall.
  specialize (Hall _ (in_map (fun b => (byte_val b, normalize b)) bs b1 H1)).
  rewrite forallb_forall in Hall.
  specialize (Hall _ (in_map (fun b => (byte_val b, normalize b)) bs b2 H2)).
  simpl in Hall. apply Z.ltb_lt in Hlt. rewrite Hlt in Hall. exact Hall.
Qed.

Lemma normalize_lt (b1 b2 : byte) :
  byte_val b1 < byte_val b2 -> SFltb (normalize b1) (normalize b2) = true.
Proof.
  apply (normalize_increasing_on_sound all_bytes b1 b2 normalize_increasing);
    apply list_elem_of_In, all_bytes_complete.
Qed.

(** X15: normalization keeps the order of the pixel values and loses none: a
    larger byte decodes to a strictly larger float32, so the 256 bytes
    decode to 256 different values. *)
Theorem normalize_strictly_increasing (b1 b2 : byte) :
  (byte_val b1 < byte_val b2 -> SFltb (normalize b1) (normalize b2) = true)
  /\ (normalize b1 = normalize b2 -> b1 = b2).
Proof.
  split; [apply normalize_lt | ].
  intros Heq. apply byte_val_inj.
  destruct (Z.lt_trichotomy (byte_val b1) (byte_val b2)) as [Hlt | [Heqv | Hgt]];
    [ | exact Heqv | ].
  - apply normalize_lt in Hlt. rewrite Heq, normalize_not_below_itself in Hlt.
    discriminate.
  - apply normalize_lt in Hgt. rewrite Heq, normalize_not_below_itself in Hgt.
    discriminate.
Qed.

Lemma normalize_strictly_increasing_witness :
  SFltb (normalize x7f) (normalize x80) = true.
Proof.
  apply (proj1 (normalize_strictly_increasing x7f x80)). vm_compute. reflexivity.
Defined.

(** ** Training and test sets *)

Lemma append_cancel (d a b : string) :
  String.append d a = String.append d b -> a = b.
Proof.
  induction d as [|c d IH]; simpl; intros Heq; [exact Heq | ].
  injection Heq as Heq. apply IH, Heq.
Qed.

Lemma path_join_relative_inj (d a b : string) :
  String.prefix "/" a = false -> String.prefix "/" b = false ->
  path_join d a = path_join d b -> a = b.
Proof.
  unfold path_join. intros -> ->.
  destruct (String.eqb d EmptyString || ends_with_slash d); intros Heq.
  - apply (append_cancel d), Heq.
  - apply (append_cancel "/"), (append_cancel d), Heq.
Qed.

Lemma path_join_apart (d a b : string) :
  String.prefix "/" a = false -> String.prefix "/" b = false ->
  a <> b -> path_join d a <> path_join d b.
Proof. intros Ha Hb Hne Heq. apply Hne, (path_join_relative_inj d a b Ha Hb Heq). Qed.

(** X16: the two sets keep apart: whatever the directory and however the call
    ends, [train_dataset] leaves the two test files as they were on disk,
    present or absent, and [test_dataset] the two training files. *)
Theorem train_and_test_keep_apart (directory : string) (w : world) :
  (let w' := snd (train_dataset directory w) in
   files w' !! path_join directory "t10k-images-idx3-ubyte"
     = files w !! path_join directory "t10k-images-idx3-ubyte"
   /\ files w' !! path_join directory "t10k-labels-idx1-ubyte"
      = files w !! path_join directory "t10k-labels-idx1-ubyte")
  /\ (let w' := snd (test_dataset directory w) in
      files w' !! path_join directory "train-images-idx3-ubyte"
        = files w !! path_join directory "train-images-idx3-ubyte"
      /\ files w' !! path_join directory "train-labels-idx1-ubyte"
         = files w !! path_join directory "train-labels-idx1-ubyte").
Proof.
  unfold train_dataset, test_dataset.
  pose proof (dataset_frame directory "train-images-idx3-ubyte"
                "train-labels-idx1-ubyte" w) as (_ & _ & Htrain).
  pose proof (dataset_frame directory "t10k-images-idx3-ubyte"
                "t10k-labels-idx1-ubyte" w) as (_ & _ & Htest).
  repeat split; first [apply Htrain | apply Htest];
    apply path_join_apart; first [reflexivity | discriminate].
Qed.
